(** * The ECO-lite dataset validator

    A shallow embedding of [scripts/validate_eco_lite.py] and the
    properties of its single routine [main]: load, parse, shape check,
    field check, duplicate check, report.

    The Python values the routine handles are modelled as they are at run
    time: a [str] is a sequence of Unicode code points, a JSON document is
    the tree of Python objects that [json.loads] builds, a [Counter] is a
    dictionary in insertion order, and a run of [main] is what it prints
    on the two channels together with what it returns or raises. *)

From Stdlib Require Import ZArith NArith String Ascii Lia SpecFloat DecimalString Sorted.
From stdpp Require Import base decidable option numbers list.

Local Open Scope N_scope.

(** ** Python strings *)

(** A Python [str]: its code points, in order. *)
Definition pystr := list N.

(** The [str] written by an ASCII literal of the source. *)
Definition lit (s : string) : pystr :=
  map N_of_ascii (list_ascii_of_string s).

(** [str(n)] for a non-negative integer, as f-strings format it. *)
Definition str_of_nat (n : nat) : pystr :=
  lit (NilEmpty.string_of_uint (Nat.to_uint n)).

(** [str(z)] for an [int]. *)
Definition str_of_int (z : Z) : pystr :=
  match z with
  | Zneg p => lit "-" ++ str_of_nat (Pos.to_nat p)
  | _ => str_of_nat (Z.to_nat z)
  end.

(** [sep.join(parts)]. *)
Fixpoint join (sep : pystr) (parts : list pystr) : pystr :=
  match parts with
  | [] => []
  | [p] => p
  | p :: rest => p ++ sep ++ join sep rest
  end.

(** [repr] of a list whose elements have the given [repr]s. *)
Definition repr_list (items : list pystr) : pystr :=
  lit "[" ++ join (lit ", ") items ++ lit "]".

(** ** Exceptions and fallible calls *)

(** An exception object: its class and what [str(exc)] gives. *)
Record py_exception := PyExc { exc_class : string; exc_str : pystr }.

(** The outcome of a call: the exception it raises, or its value. *)
Definition result (A : Type) : Type := py_exception + A.

Definition raise {A} (e : py_exception) : result A := inl e.
Definition ret {A} (a : A) : result A := inr a.
Definition bind {A B} (m : result A) (k : A -> result B) : result B :=
  match m with
  | inl e => inl e
  | inr a => k a
  end.

Notation "'let*' x ':=' m 'in' k" := (bind m (fun x => k))
  (at level 10, x name, m at level 100, k at level 200).
Notation "'let*' ' p ':=' m 'in' k" := (bind m (fun p => k))
  (at level 10, p strict pattern, m at level 100, k at level 200).

(** ** UTF-8 *)

Definition is_surrogate (c : N) : bool := (0xD800 <=? c) && (c <? 0xE000).

(** The bytes of one code point; none for a surrogate, which the codec
    refuses. *)
Definition utf8_encode_char (c : N) : option (list N) :=
  if c <? 0x80 then Some [c]
  else if c <? 0x800 then
    Some [N.lor 0xC0 (N.shiftr c 6); N.lor 0x80 (N.land c 0x3F)]
  else if c <? 0x10000 then
    if is_surrogate c then None
    else Some [N.lor 0xE0 (N.shiftr c 12);
               N.lor 0x80 (N.land (N.shiftr c 6) 0x3F);
               N.lor 0x80 (N.land c 0x3F)]
  else
    Some [N.lor 0xF0 (N.land (N.shiftr c 18) 0x07);
          N.lor 0x80 (N.land (N.shiftr c 12) 0x3F);
          N.lor 0x80 (N.land (N.shiftr c 6) 0x3F);
          N.lor 0x80 (N.land c 0x3F)].

Definition hex_digit (d : N) : N :=
  if d <? 10 then 48 + d else 87 + d.

Definition surrogates_not_allowed (c : N) (pos : nat) : py_exception :=
  PyExc "UnicodeEncodeError"
    (lit "'utf-8' codec can't encode character '\u"
     ++ [hex_digit (N.land (N.shiftr c 12) 15); hex_digit (N.land (N.shiftr c 8) 15);
         hex_digit (N.land (N.shiftr c 4) 15); hex_digit (N.land c 15)]
     ++ lit "' in position " ++ str_of_nat pos ++ lit ": surrogates not allowed").

Fixpoint encode_from (pos : nat) (s : pystr) : result (list N) :=
  match s with
  | [] => ret []
  | c :: rest =>
      match utf8_encode_char c with
      | None => raise (surrogates_not_allowed c pos)
      | Some bytes => let* tail := encode_from (S pos) rest in ret (bytes ++ tail)
      end
  end.

(** [s.encode("utf-8")]. *)
Definition encode_utf8 (s : pystr) : result (list N) := encode_from 0 s.

(** Text as a strict UTF-8 decoder yields it: no surrogate code point. *)
Definition well_formed (s : pystr) : bool :=
  forallb (fun c => negb (is_surrogate c)) s.

(** ** The objects [json.loads] builds *)

#[warnings="-register-all"]
Inductive pyval :=
| PyNone
| PyBool (b : bool)
| PyInt (z : Z)
| PyFloat (f : spec_float)
| PyStr (s : pystr)
| PyList (items : list pyval)
| PyDict (items : list (pystr * pyval)).

(** A [dict] is its items in insertion order; a key occurs once. *)
Abbreviation dict := (list (pystr * pyval)).

(** [key in d]. *)
Definition dict_contains (d : dict) (key : pystr) : bool :=
  existsb (fun kv => bool_decide (kv.1 = key)) d.

(** [d.get(key)]. *)
Fixpoint dict_get (d : dict) (key : pystr) : option pyval :=
  match d with
  | [] => None
  | (k, v) :: rest => if decide (k = key) then Some v else dict_get rest key
  end.

(** The name [type(v).__name__] of a value's class. *)
Definition type_name (v : pyval) : string :=
  match v with
  | PyNone => "NoneType"
  | PyBool _ => "bool"
  | PyInt _ => "int"
  | PyFloat _ => "float"
  | PyStr _ => "str"
  | PyList _ => "list"
  | PyDict _ => "dict"
  end.

(** ** Dictionary keys *)

(** The values that can be hashed, hence counted by a [Counter]: of the
    objects [json.loads] builds, all but lists and dicts. *)
Inductive hashable :=
| HNone
| HBool (b : bool)
| HInt (z : Z)
| HFloat (f : spec_float)
| HStr (s : pystr).

(** [hash(v)] succeeds or raises [TypeError]; the value is kept as the key. *)
Definition as_key (v : pyval) : result hashable :=
  match v with
  | PyNone => ret HNone
  | PyBool b => ret (HBool b)
  | PyInt z => ret (HInt z)
  | PyFloat f => ret (HFloat f)
  | PyStr s => ret (HStr s)
  | PyList _ | PyDict _ =>
      raise (PyExc "TypeError"
               (lit "unhashable type: '" ++ lit (type_name v) ++ lit "'"))
  end.

(** Two keys are one dictionary entry when they are equal under [==] (and
    then hash alike). Python compares [bool], [int] and [float] by numeric
    value, so [True], [1] and [1.0] are the same key; a [str] equals only
    the same [str]; [None] only [None]. The class below names the entry a
    key falls in: a number by its value [m * 2^e] with [m] odd (or [0]),
    the infinities by sign, and the one [nan] object of the decoder. *)
Inductive key_class :=
| KNone
| KStr (s : pystr)
| KNum (m e : Z)
| KInf (negative : bool)
| KNan.

#[global] Instance key_class_eq_dec : EqDecision key_class.
Proof. solve_decision. Defined.

Fixpoint strip_twos (p : positive) (e : Z) : positive * Z :=
  match p with
  | xO p' => strip_twos p' (e + 1)%Z
  | _ => (p, e)
  end.

Definition dyadic (negative : bool) (m : positive) (e : Z) : key_class :=
  let '(m', e') := strip_twos m e in
  KNum (if negative then Zneg m' else Zpos m') e'.

Definition int_class (z : Z) : key_class :=
  match z with
  | Z0 => KNum 0 0
  | Zpos p => dyadic false p 0
  | Zneg p => dyadic true p 0
  end.

Definition float_class (f : spec_float) : key_class :=
  match f with
  | S754_zero _ => KNum 0 0
  | S754_infinity s => KInf s
  | S754_nan => KNan
  | S754_finite s m e => dyadic s m e
  end.

Definition key_class_of (k : hashable) : key_class :=
  match k with
  | HNone => KNone
  | HBool b => int_class (if b then 1 else 0)
  | HInt z => int_class z
  | HFloat f => float_class f
  | HStr s => KStr s
  end.

(** Whether [a] and [b] are the same dictionary key. *)
Definition same_key (a b : hashable) : bool :=
  bool_decide (key_class_of a = key_class_of b).

(** ** Counter *)

(** A [Counter]: its items in insertion order, each key with its count. *)
Abbreviation counter := (list (hashable * nat)).

(** [mc[elem] = mc.get(elem, 0) + 1]: an existing entry keeps its key
    object and its place; a new key goes last. *)
Fixpoint counter_add (mc : counter) (elem : hashable) : counter :=
  match mc with
  | [] => [(elem, 1%nat)]
  | (k, n) :: rest =>
      if same_key k elem then (k, S n) :: rest
      else (k, n) :: counter_add rest elem
  end.

(** [entry[key]] for a string [key]. *)
Definition getitem (entry : pyval) (key : pystr) : result pyval :=
  match entry with
  | PyDict d =>
      match dict_get d key with
      | Some v => ret v
      | None => raise (PyExc "KeyError" (lit "'" ++ key ++ lit "'"))
      end
  | PyList _ =>
      raise (PyExc "TypeError" (lit "list indices must be integers or slices, not str"))
  | PyStr _ =>
      raise (PyExc "TypeError" (lit "string indices must be integers, not 'str'"))
  | _ =>
      raise (PyExc "TypeError"
               (lit "'" ++ lit (type_name entry) ++ lit "' object is not subscriptable"))
  end.

(** [Counter(entry["moves"] for entry in data)], continued from [mc]: the
    generator yields one entry's moves at a time and the counter hashes
    it before the next is computed. *)
Fixpoint count_moves (mc : counter) (data : list pyval) : result counter :=
  match data with
  | [] => ret mc
  | entry :: rest =>
      let* moves := getitem entry (lit "moves") in
      let* k := as_key moves in
      count_moves (counter_add mc k) rest
  end.

Definition Counter (data : list pyval) : result counter := count_moves [] data.

(** ** The field check *)

Definition required_keys : list pystr := [lit "eco"; lit "name"; lit "moves"].

(** [enumerate(l, start)]. *)
Fixpoint enumerate_from {A} (start : nat) (l : list A) : list (nat * A) :=
  match l with
  | [] => []
  | x :: rest => (start, x) :: enumerate_from (S start) rest
  end.

Definition enumerate {A} (l : list A) : list (nat * A) := enumerate_from 0 l.

(** The inner loop: whether it leaves by [break], at the first key of
    [keys] that is not in [entry]. *)
Fixpoint lacks_key (entry : dict) (keys : list pystr) : bool :=
  match keys with
  | [] => false
  | key :: rest =>
      if negb (dict_contains entry key) then true else lacks_key entry rest
  end.

(** One turn of the outer loop on the list [missing] built so far. *)
Definition scan_entry (missing : list nat) (idx : nat) (entry : pyval) : list nat :=
  match entry with
  | PyDict d => if lacks_key d required_keys then missing ++ [idx] else missing
  | _ => missing ++ [idx]
  end.

(** The list [missing] after the loop over [enumerate(data)]. *)
Definition missing (data : list pyval) : list nat :=
  fold_left (fun acc ie => scan_entry acc ie.1 ie.2) (enumerate data) [].

(** ** The duplicate check *)

(** [[moves for moves, count in move_counts.items() if count > 1]]. *)
Definition duplicates (move_counts : counter) : list hashable :=
  map fst (filter (fun kc => (1 < kc.2)%nat) move_counts).

(** ** A run of the script *)

(** What the script meets outside itself: the path it derives from its own
    location, the outcome of [data_path.read_text(encoding="utf-8")], the
    decoder [json.loads], and [repr] on strings and floats. *)
Record runtime := Runtime {
  data_path : pystr;
  read_text : result pystr;
  json_loads : pystr -> result pyval;
  repr_str : pystr -> pystr;
  repr_float : spec_float -> pystr;
}.

(** [repr(k)]. *)
Definition repr (rt : runtime) (k : hashable) : pystr :=
  match k with
  | HNone => lit "None"
  | HBool true => lit "True"
  | HBool false => lit "False"
  | HInt z => str_of_int z
  | HFloat f => repr_float rt f
  | HStr s => repr_str rt s
  end.

(** What [main] does: the lines it prints on each channel, in order, and
    the code it returns or the exception that leaves it. *)
Record run := Run {
  stdout : list pystr;
  stderr : list pystr;
  outcome : result Z;
}.

Definition fails_with (line : pystr) : run :=
  {| stdout := []; stderr := [line]; outcome := ret 1%Z |}.

Definition escapes (exc : py_exception) : run :=
  {| stdout := []; stderr := []; outcome := raise exc |}.

Definition load_message (rt : runtime) (exc : py_exception) : pystr :=
  lit "Failed to load " ++ data_path rt ++ lit ": " ++ exc_str exc.

Definition shape_message : pystr := lit "Dataset root must be a JSON array.".

Definition missing_message (missing : list nat) : pystr :=
  lit "Entries missing required keys: " ++ repr_list (map str_of_nat missing).

Definition duplicates_message (rt : runtime) (duplicates : list hashable) : pystr :=
  lit "Duplicate move strings found (" ++ str_of_nat (length duplicates)
  ++ lit "): " ++ repr_list (map (repr rt) duplicates).

Definition entries_line (n : nat) : pystr := lit "ECO-lite entries: " ++ str_of_nat n.

Definition size_line (byte_size : nat) : pystr :=
  lit "Approximate file size: " ++ str_of_nat byte_size ++ lit " bytes".

(** The body of [main] after the [try] statement, on the text read and
    the object decoded from it. *)
Definition checks (rt : runtime) (content : pystr) (data : pyval) : run :=
  match data with
  | PyList data =>
      match missing data with
      | (_ :: _) as missing => fails_with (missing_message missing)
      | [] =>
          match Counter data with
          | inl exc => escapes exc
          | inr move_counts =>
              match duplicates move_counts with
              | (_ :: _) as duplicates => fails_with (duplicates_message rt duplicates)
              | [] =>
                  match encode_utf8 content with
                  | inl exc => escapes exc
                  | inr bytes =>
                      let byte_size := length bytes in
                      {| stdout := [entries_line (length data); size_line byte_size];
                         stderr := [];
                         outcome := ret 0%Z |}
                  end
              end
          end
      end
  | _ => fails_with shape_message
  end.

(** [main()]. *)
Definition main (rt : runtime) : run :=
  match (let* content := read_text rt in
         let* data := json_loads rt content in
         ret (content, data)) with
  | inl exc => fails_with (load_message rt exc)
  | inr (content, data) => checks rt content data
  end.

(** How the interpreter ends on [raise SystemExit(main())]: with the code
    [main] returned as exit status; or, when an exception left [main] and
    nothing caught it, with a traceback on the error channel and exit
    status 1. *)
Record process := Process {
  exit_status : Z;
  uncaught : option py_exception;
}.

Definition script (rt : runtime) : process :=
  match outcome (main rt) with
  | inr code => {| exit_status := code; uncaught := None |}
  | inl exc => {| exit_status := 1%Z; uncaught := Some exc |}
  end.

(** ** A decoder and a [repr] to run the script on concrete texts

    [json.loads] and [repr] belong to the Python library, and every
    property below holds for whatever they compute. To run [main] on a
    literal text this section supplies a decoder for JSON written after
    the library's scanner, with the number hooks set to refuse: a number
    with a fraction or an exponent and the constants [NaN] and [Infinity]
    raise instead of building a [float]. *)

Module Sample.

Section Decoder.

Variable doc : pystr.

Definition newline : N := 10.

(** [JSONDecodeError(msg, doc, pos)], with the line and column it shows. *)
Definition JSONDecodeError (msg : string) (pos : nat) : py_exception :=
  let before := take pos doc in
  let lineno := S (length (filter (fun c => c = newline) before)) in
  let colno := S (fold_left (fun col c => if c =? newline then O else S col) before O) in
  PyExc "JSONDecodeError"
    (lit msg ++ lit ": line " ++ str_of_nat lineno ++ lit " column "
     ++ str_of_nat colno ++ lit " (char " ++ str_of_nat pos ++ lit ")").

Definition is_ws (c : N) : bool :=
  (c =? 32) || (c =? 9) || (c =? 10) || (c =? 13).

Fixpoint skip_ws (s : pystr) (pos : nat) : pystr * nat :=
  match s with
  | c :: rest => if is_ws c then skip_ws rest (S pos) else (s, pos)
  | [] => (s, pos)
  end.

Definition hex_value (c : N) : option N :=
  if (48 <=? c) && (c <=? 57) then Some (c - 48)
  else if (97 <=? c) && (c <=? 102) then Some (c - 87)
  else if (65 <=? c) && (c <=? 70) then Some (c - 55)
  else None.

Definition decode_uXXXX (h1 h2 h3 h4 : N) : option N :=
  match hex_value h1, hex_value h2, hex_value h3, hex_value h4 with
  | Some a, Some b, Some c, Some d => Some (((a * 16 + b) * 16 + c) * 16 + d)
  | _, _, _, _ => None
  end.

Definition backslash (esc : N) : option N :=
  match esc with
  | 34 => Some 34
  | 92 => Some 92
  | 47 => Some 47
  | 98 => Some 8
  | 102 => Some 12
  | 110 => Some 10
  | 114 => Some 13
  | 116 => Some 9
  | _ => None
  end.

(** The string whose opening quote is at [begin], read from just after it. *)
Fixpoint scanstring (begin : nat) (acc : pystr) (s : pystr) (pos : nat)
  : result (pystr * pystr * nat) :=
  match s with
  | [] => raise (JSONDecodeError "Unterminated string starting at" begin)
  | 34 :: rest => ret (acc, rest, S pos)
  | 92 :: [] => raise (JSONDecodeError "Unterminated string starting at" begin)
  | 92 :: 117 :: h1 :: h2 :: h3 :: h4 :: rest =>
      match decode_uXXXX h1 h2 h3 h4 with
      | None => raise (JSONDecodeError "Invalid \uXXXX escape" (S pos))
      | Some uni =>
          let single := scanstring begin (acc ++ [uni]) rest (pos + 6) in
          if (0xD800 <=? uni) && (uni <=? 0xDBFF) then
            match rest with
            | 92 :: 117 :: l1 :: l2 :: l3 :: l4 :: rest' =>
                match decode_uXXXX l1 l2 l3 l4 with
                | None => raise (JSONDecodeError "Invalid \uXXXX escape" (pos + 7))
                | Some uni2 =>
                    if (0xDC00 <=? uni2) && (uni2 <=? 0xDFFF) then
                      scanstring begin
                        (acc ++ [0x10000 + N.lor (N.shiftl (uni - 0xD800) 10) (uni2 - 0xDC00)])
                        rest' (pos + 12)
                    else single
                end
            | _ => single
            end
          else single
      end
  | 92 :: 117 :: _ => raise (JSONDecodeError "Invalid \uXXXX escape" (S pos))
  | 92 :: esc :: rest =>
      match backslash esc with
      | Some c => scanstring begin (acc ++ [c]) rest (pos + 2)
      | None => raise (JSONDecodeError "Invalid \escape" pos)
      end
  | c :: rest =>
      if c <? 32 then raise (JSONDecodeError "Invalid control character at" pos)
      else scanstring begin (acc ++ [c]) rest (S pos)
  end.

Definition is_digit (c : N) : bool := (48 <=? c) && (c <=? 57).

(** The digits [s] starts with, and what follows them. *)
Fixpoint span_digits (s : pystr) : pystr * pystr :=
  match s with
  | c :: rest =>
      if is_digit c then let '(ds, rest') := span_digits rest in (c :: ds, rest')
      else ([], s)
  | [] => ([], [])
  end.

Definition int_of_digits (ds : pystr) : Z :=
  fold_left (fun acc d => (acc * 10 + Z.of_N (d - 48))%Z) ds 0%Z.

(** Whether a fraction or an exponent follows the integer part. *)
Definition float_follows (s : pystr) : bool :=
  match s with
  | 46 :: d :: _ => is_digit d
  | (101 | 69) :: (43 | 45) :: d :: _ => is_digit d
  | (101 | 69) :: d :: _ => is_digit d
  | _ => false
  end.

Definition refused : py_exception := PyExc "ValueError" (lit "float refused").

(** The number at the head of [s], if the number pattern matches there. *)
Definition match_number (s : pystr) (pos : nat) : option (result (pyval * pystr * nat)) :=
  let '(negative, body) :=
    match s with
    | 45 :: rest => (true, rest)
    | _ => (false, s)
    end in
  let '(ds, rest) :=
    match body with
    | 48 :: rest => ([48], rest)
    | _ => span_digits body
    end in
  match ds with
  | [] => None
  | _ =>
      if float_follows rest then Some (raise refused)
      else
        let n := int_of_digits ds in
        Some (ret (PyInt (if negative then (- n)%Z else n), rest,
                   (pos + (if negative then 1 else 0) + length ds)%nat))
  end.

Fixpoint strip_prefix (prefix s : pystr) : option pystr :=
  match prefix, s with
  | [], _ => Some s
  | p :: prefix', c :: rest => if p =? c then strip_prefix prefix' rest else None
  | _ :: _, [] => None
  end.

Definition starts_with (prefix s : pystr) : bool :=
  match strip_prefix prefix s with
  | Some _ => true
  | None => false
  end.

(** A value that is neither a string, an object nor an array. *)
Definition scan_atom (s : pystr) (pos : nat) : result (pyval * pystr * nat) :=
  match strip_prefix (lit "null") s with
  | Some rest => ret (PyNone, rest, (pos + 4)%nat)
  | None =>
  match strip_prefix (lit "true") s with
  | Some rest => ret (PyBool true, rest, (pos + 4)%nat)
  | None =>
  match strip_prefix (lit "false") s with
  | Some rest => ret (PyBool false, rest, (pos + 5)%nat)
  | None =>
  match match_number s pos with
  | Some r => r
  | None =>
      if starts_with (lit "NaN") s then raise refused
      else if starts_with (lit "Infinity") s then raise refused
      else if starts_with (lit "-Infinity") s then raise refused
      else raise (JSONDecodeError "Expecting value" pos)
  end end end end.

(** [d[key] = value]: a key already there keeps its place. *)
Fixpoint dict_set (d : dict) (key : pystr) (value : pyval) : dict :=
  match d with
  | [] => [(key, value)]
  | (k, v) :: rest =>
      if decide (k = key) then (k, value) :: rest
      else (k, v) :: dict_set rest key value
  end.

Definition too_deep : py_exception :=
  PyExc "RecursionError" (lit "maximum recursion depth exceeded").

(** The scanner: [scan_once] reads one value at [pos]; [scan_items] the
    rest of an array from an element on; [scan_pairs] the rest of an
    object from just after the opening quote, at [begin], of a key. *)
Fixpoint scan_once (fuel : nat) (s : pystr) (pos : nat) {struct fuel}
  : result (pyval * pystr * nat) :=
  match fuel with
  | O => raise too_deep
  | S fuel =>
      match s with
      | 34 :: rest =>
          let* '(str, rest, pos) := scanstring pos [] rest (S pos) in
          ret (PyStr str, rest, pos)
      | 123 :: rest =>
          let '(rest, pos) := skip_ws rest (S pos) in
          match rest with
          | 125 :: rest => ret (PyDict [], rest, S pos)
          | 34 :: rest => scan_pairs fuel [] pos rest (S pos)
          | _ => raise (JSONDecodeError
                          "Expecting property name enclosed in double quotes" pos)
          end
      | 91 :: rest =>
          let '(rest, pos) := skip_ws rest (S pos) in
          match rest with
          | 93 :: rest => ret (PyList [], rest, S pos)
          | _ => scan_items fuel [] rest pos
          end
      | _ => scan_atom s pos
      end
  end
with scan_items (fuel : nat) (values : list pyval) (s : pystr) (pos : nat) {struct fuel}
  : result (pyval * pystr * nat) :=
  match fuel with
  | O => raise too_deep
  | S fuel =>
      let* '(value, rest, pos) := scan_once fuel s pos in
      let values := values ++ [value] in
      let '(rest, pos) := skip_ws rest pos in
      match rest with
      | 93 :: rest => ret (PyList values, rest, S pos)
      | 44 :: rest =>
          let '(rest, pos) := skip_ws rest (S pos) in
          scan_items fuel values rest pos
      | _ => raise (JSONDecodeError "Expecting ',' delimiter" pos)
      end
  end
with scan_pairs (fuel : nat) (pairs : dict) (begin : nat) (s : pystr) (pos : nat)
  {struct fuel} : result (pyval * pystr * nat) :=
  match fuel with
  | O => raise too_deep
  | S fuel =>
      let* '(key, rest, pos) := scanstring begin [] s pos in
      let '(rest, pos) := skip_ws rest pos in
      match rest with
      | 58 :: rest =>
          let '(rest, pos) := skip_ws rest (S pos) in
          let* '(value, rest, pos) := scan_once fuel rest pos in
          let pairs := dict_set pairs key value in
          let '(rest, pos) := skip_ws rest pos in
          match rest with
          | 125 :: rest => ret (PyDict pairs, rest, S pos)
          | 44 :: rest =>
              let '(rest, pos) := skip_ws rest (S pos) in
              match rest with
              | 34 :: rest => scan_pairs fuel pairs pos rest (S pos)
              | _ => raise (JSONDecodeError
                              "Expecting property name enclosed in double quotes" pos)
              end
          | _ => raise (JSONDecodeError "Expecting ',' delimiter" pos)
          end
      | _ => raise (JSONDecodeError "Expecting ':' delimiter" pos)
      end
  end.

(** The whole text must be one value between optional white space. A call
    of the scanner reads a character or is followed by one that does, so
    twice the length of the text bounds their depth. *)
Definition decode : result pyval :=
  match doc with
  | 0xFEFF :: _ =>
      raise (JSONDecodeError "Unexpected UTF-8 BOM (decode using utf-8-sig)" 0)
  | _ =>
      let '(s, pos) := skip_ws doc 0 in
      let* '(obj, rest, pos) := scan_once (2 * length doc + 2) s pos in
      let '(rest, pos) := skip_ws rest pos in
      match rest with
      | [] => ret obj
      | _ => raise (JSONDecodeError "Extra data" pos)
      end
  end.

End Decoder.

(** [json.loads(doc)]. *)
Definition loads (doc : pystr) : result pyval := decode doc.

Definition hex_digits (width : nat) (c : N) : pystr :=
  map (fun i => hex_digit (N.land (N.shiftr c (4 * N.of_nat i)) 15)) (rev (seq 0 width)).

Definition ascii_char (quote : N) (c : N) : pystr :=
  if (c =? quote) || (c =? 92) then [92; c]
  else if c =? 9 then lit "\t"
  else if c =? 10 then lit "\n"
  else if c =? 13 then lit "\r"
  else if (c <? 32) || (c =? 127) then lit "\x" ++ hex_digits 2 c
  else if c <? 127 then [c]
  else if c <? 0x100 then lit "\x" ++ hex_digits 2 c
  else if c <? 0x10000 then lit "\u" ++ hex_digits 4 c
  else lit "\U" ++ hex_digits 8 c.

(** [ascii(s)] of a string: [repr(s)] with every code point outside ASCII
    escaped; the two agree on ASCII text. *)
Definition ascii_repr (s : pystr) : pystr :=
  let quote := if bool_decide (39 ∈ s) && negb (bool_decide (34 ∈ s)) then 34 else 39 in
  [quote] ++ concat (map (ascii_char quote) s) ++ [quote].

(** A JSON text written with ['] where it has the double quote. *)
Definition text (s : string) : pystr :=
  map (fun c => if c =? 39 then 34 else c) (lit s).

(** The script beside a dataset file that holds [content]. This decoder
    builds no [float], so [repr] is never asked for one. *)
Definition on_file (content : pystr) : runtime :=
  {| data_path := lit "/srv/chess/assets/data/eco_lite.json";
     read_text := ret content;
     json_loads := loads;
     repr_str := ascii_repr;
     repr_float := fun _ => lit "nan" |}.

(** The script beside no dataset file. *)
Definition no_file : runtime :=
  {| data_path := lit "/srv/chess/assets/data/eco_lite.json";
     read_text :=
       raise (PyExc "FileNotFoundError"
                (lit "[Errno 2] No such file or directory: '/srv/chess/assets/data/eco_lite.json'"));
     json_loads := loads;
     repr_str := ascii_repr;
     repr_float := fun _ => lit "nan" |}.

(** A decoder that hands over the keys of each record of an array in the
    opposite order. *)
Definition reversed_keys (v : pyval) : pyval :=
  match v with
  | PyDict d => PyDict (rev d)
  | _ => v
  end.

Definition loads_reversed (doc : pystr) : result pyval :=
  match loads doc with
  | inr (PyList data) => inr (PyList (map reversed_keys data))
  | r => r
  end.

Definition on_file_reversed (content : pystr) : runtime :=
  {| data_path := lit "/srv/chess/assets/data/eco_lite.json";
     read_text := ret content;
     json_loads := loads_reversed;
     repr_str := ascii_repr;
     repr_float := fun _ => lit "nan" |}.

(** The keys of an object are pairwise distinct. *)
Definition unique_keys (v : pyval) : bool :=
  match v with
  | PyDict d => bool_decide (NoDup d.*1)
  | _ => true
  end.

(** The texts of the scenarios. *)
Definition polish : pystr :=
  text "[{'eco':'A00','name':'Polish','moves':'1.b4'}]".

Definition polish_bird : pystr :=
  text "[{'eco':'A00','name':'Polish','moves':'1.b4'},{'eco':'A01','name':'Bird','moves':'1.b4'}]".

Definition three_openings : pystr :=
  text "[{'eco':'A00','name':'Polish','moves':'1.b4'},
 {'eco':'A02','name':'Bird','moves':'1.f4'},
 {'name':'R" ++ [233] ++ text "ti','moves':'1.Nf3','eco':'A04'}]".

Definition stray_number : pystr :=
  text "[{'eco':'A00','name':'Polish','moves':'1.b4'}, 7, {'eco':'A02','name':'Bird','moves':'1.f4'}]".

Definition missing_and_duplicate : pystr :=
  text "[{'eco':'A00','name':'Polish','moves':'1.b4'},{'eco':'A01','moves':'1.f4'},{'eco':'A00','name':'Sokolsky','moves':'1.b4'}]".

Definition moves_as_array : pystr :=
  text "[{'eco':'A00','name':'Polish','moves':['b4']}]".

Definition duplicate_beside_array : pystr :=
  text "[{'eco':'A00','name':'Polish','moves':'1.b4'},{'eco':'A00','name':'Sokolsky','moves':'1.b4'},{'eco':'A02','name':'Bird','moves':['f4']}]".

Definition truncated : pystr := text "[{'eco':'A00',".

Definition object_root : pystr := text "{'eco':'A00','name':'Polish','moves':'1.b4'}".

Definition empty_array : pystr := text "[]".

End Sample.

(** ** The JSON grammar

    Whether a text is a JSON text by the grammar of RFC 8259: a value
    between optional white space, the values being objects, arrays,
    strings, numbers and the three names [true], [false], [null].
    [json.loads] accepts every such text and, beyond the grammar, the
    constants [NaN], [Infinity] and [-Infinity], which it decodes to
    floats. *)

Module Grammar.

Fixpoint ws (s : pystr) : pystr :=
  match s with
  | c :: rest => if Sample.is_ws c then ws rest else s
  | [] => []
  end.

(** One digit or more. *)
Definition digits (s : pystr) : option pystr :=
  match Sample.span_digits s with
  | ([], _) => None
  | (_ :: _, rest) => Some rest
  end.

(** An optional part: what follows it if it is there, [s] if not. *)
Definition optional (part : pystr -> option pystr) (s : pystr) : pystr :=
  match part s with
  | Some rest => rest
  | None => s
  end.

Definition int_part (s : pystr) : option pystr :=
  match s with
  | 48 :: rest => Some rest
  | _ => digits s
  end.

Definition frac (s : pystr) : option pystr :=
  match s with
  | 46 :: rest => digits rest
  | _ => None
  end.

Definition exp (s : pystr) : option pystr :=
  match s with
  | (101 | 69) :: (43 | 45) :: rest => digits rest
  | (101 | 69) :: rest => digits rest
  | _ => None
  end.

Definition number (s : pystr) : option pystr :=
  match int_part (match s with 45 :: rest => rest | _ => s end) with
  | Some rest => Some (optional exp (optional frac rest))
  | None => None
  end.

Definition is_hex (c : N) : bool :=
  match Sample.hex_value c with
  | Some _ => true
  | None => false
  end.

(** The characters of a string after its opening quote, up to and with
    the closing quote. *)
Fixpoint chars (s : pystr) : option pystr :=
  match s with
  | [] => None
  | 34 :: rest => Some rest
  | 92 :: 117 :: h1 :: h2 :: h3 :: h4 :: rest =>
      if is_hex h1 && is_hex h2 && is_hex h3 && is_hex h4 then chars rest else None
  | 92 :: (34 | 92 | 47 | 98 | 102 | 110 | 114 | 116) :: rest => chars rest
  | 92 :: _ => None
  | c :: rest => if c <? 32 then None else chars rest
  end.

Definition name (s : pystr) : option pystr :=
  match Sample.strip_prefix (lit "true") s with
  | Some rest => Some rest
  | None =>
      match Sample.strip_prefix (lit "false") s with
      | Some rest => Some rest
      | None => Sample.strip_prefix (lit "null") s
      end
  end.

(** What follows a value, the elements of an array up to its bracket, the
    members of an object from just after the quote that opens a name. *)
Fixpoint value (fuel : nat) (s : pystr) {struct fuel} : option pystr :=
  match fuel with
  | O => None
  | S fuel =>
      match s with
      | 34 :: rest => chars rest
      | 123 :: rest =>
          match ws rest with
          | 125 :: rest => Some rest
          | 34 :: rest => members fuel rest
          | _ => None
          end
      | 91 :: rest =>
          match ws rest with
          | 93 :: rest => Some rest
          | rest => elements fuel rest
          end
      | _ =>
          match name s with
          | Some rest => Some rest
          | None => number s
          end
      end
  end
with elements (fuel : nat) (s : pystr) {struct fuel} : option pystr :=
  match fuel with
  | O => None
  | S fuel =>
      match value fuel s with
      | None => None
      | Some rest =>
          match ws rest with
          | 93 :: rest => Some rest
          | 44 :: rest => elements fuel (ws rest)
          | _ => None
          end
      end
  end
with members (fuel : nat) (s : pystr) {struct fuel} : option pystr :=
  match fuel with
  | O => None
  | S fuel =>
      match chars s with
      | None => None
      | Some rest =>
          match ws rest with
          | 58 :: rest =>
              match value fuel (ws rest) with
              | None => None
              | Some rest =>
                  match ws rest with
                  | 125 :: rest => Some rest
                  | 44 :: rest =>
                      match ws rest with
                      | 34 :: rest => members fuel rest
                      | _ => None
                      end
                  | _ => None
                  end
              end
          | _ => None
          end
      end
  end.

(** [doc] is a JSON text. *)
Definition valid (doc : pystr) : bool :=
  match value (2 * length doc + 2) (ws doc) with
  | Some rest => bool_decide (ws rest = [])
  | None => false
  end.

(** A dataset whose one record has the constant [NaN] for its moves, and
    the object [json.loads] decodes it to. *)
Definition nan_moves : pystr :=
  Sample.text "[{'eco':'A00','name':'Polish','moves':NaN}]".

Definition nan_moves_decoded : pyval :=
  PyList [PyDict [(lit "eco", PyStr (lit "A00")); (lit "name", PyStr (lit "Polish"));
                  (lit "moves", PyFloat S754_nan)]].

(** A file that holds the constant alone, and the float it decodes to. *)
Definition nan_alone : pystr := lit "NaN".

End Grammar.

Local Close Scope N_scope.
Local Open Scope nat_scope.

(** ** The vocabulary of the properties *)

(** The decoded value is an array; is an object. *)
Definition is_array (v : pyval) : bool :=
  match v with
  | PyList _ => true
  | _ => false
  end.

Definition is_object (v : pyval) : bool :=
  match v with
  | PyDict _ => true
  | _ => false
  end.

(** A record as the dataset wants it: an object with the three keys. *)
Definition has_required_keys (entry : pyval) : bool :=
  match entry with
  | PyDict d => forallb (dict_contains d) required_keys
  | _ => false
  end.

(** Whether position [i] of [data] holds something that is not such a
    record. *)
Definition fails_at (data : list pyval) (i : nat) : bool :=
  match data !! i with
  | Some entry => negb (has_required_keys entry)
  | None => false
  end.

(** The failing positions of [data], in order. *)
Definition failing_indices (data : list pyval) : list nat :=
  filter (fun i => fails_at data i = true) (seq 0 (length data)).

(** The value under [moves] of a record. *)
Definition moves_of (entry : pyval) : option pyval :=
  match entry with
  | PyDict d => dict_get d (lit "moves")
  | _ => None
  end.

(** The dictionary key that the moves of a record make, when they can be
    hashed. *)
Definition moves_key (entry : pyval) : option hashable :=
  match moves_of entry with
  | Some v => match as_key v with inr k => Some k | inl _ => None end
  | None => None
  end.

(** The moves of a record, if it has any, are not an array or an object:
    they can be hashed. *)
Definition moves_hashable (entry : pyval) : bool :=
  match moves_of entry with
  | Some (PyList _ | PyDict _) => false
  | _ => true
  end.

(** The keys that the moves of the records of [data] make, in order. *)
Definition moves_keys (data : list pyval) : list hashable := omap moves_key data.

(** Two records that differ at most in the order of their keys. *)
Definition same_record (a b : pyval) : Prop :=
  a = b
  \/ exists d d', a = PyDict d /\ b = PyDict d' /\ d ≡ₚ d' /\ NoDup d.*1.

(** Two decoded documents that differ at most in the key order of the
    records of the array. *)
Definition same_document (v v' : pyval) : Prop :=
  v = v'
  \/ exists data data', v = PyList data /\ v' = PyList data'
                        /\ Forall2 same_record data data'.

(** Two decoders answer alike on a text: the same exception, or
    documents that differ at most in the key order of the records. *)
Definition decoders_agree (r r' : result pyval) : Prop :=
  match r, r' with
  | inl exc, inl exc' => exc = exc'
  | inr v, inr v' => same_document v v'
  | _, _ => False
  end.


(** The keys of [keys] pairwise differ as dictionary keys. *)
Definition distinct_keys (keys : list hashable) : Prop :=
  NoDup (key_class_of <$> keys).

#[global] Instance distinct_keys_dec keys : Decision (distinct_keys keys).
Proof. unfold distinct_keys. apply _. Defined.

(** How many elements of [keys] are the dictionary key [k]. *)
Definition occurrences (k : hashable) (keys : list hashable) : nat :=
  length (filter (fun k' => same_key k k' = true) keys).

(** The entries of a counter, each named by the class of its key. *)
Definition classes (mc : counter) : list key_class :=
  (fun kn => key_class_of kn.1) <$> mc.

(** The counter after the keys [keys] have been counted one by one. *)
Definition tally (mc : counter) (keys : list hashable) : counter :=
  fold_left counter_add keys mc.

(** A counter [mc] holds the counts of [keys]: one entry for each class of
    key met, under a key of that class, with the number of keys of the
    class. *)
Definition counts (mc : counter) (keys : list hashable) : Prop :=
  NoDup (classes mc)
  /\ (forall k n, (k, n) ∈ mc -> k ∈ keys /\ n = occurrences k keys)
  /\ (forall k, k ∈ keys -> key_class_of k ∈ classes mc).

(** The keys of [keys] that no earlier key of the list equals, in order:
    one for each dictionary key met, as it was first written. *)
Fixpoint firsts (keys : list hashable) : list hashable :=
  match keys with
  | [] => []
  | k :: rest => k :: filter (fun k' => same_key k k' = false) (firsts rest)
  end.

(** What [main] looks at in an element of the array: whether it is an
    object with the three keys and, if so, the value under [moves]. *)
Definition same_view (a b : pyval) : Prop :=
  has_required_keys a = has_required_keys b
  /\ (has_required_keys a = true -> moves_of a = moves_of b).

(** The run time [rt] with a decoder that answers [data]. *)
Definition with_decoded (rt : runtime) (data : pyval) : runtime :=
  {| data_path := data_path rt;
     read_text := read_text rt;
     json_loads := fun _ => ret data;
     repr_str := repr_str rt;
     repr_float := repr_float rt |}.

(** The number of bytes UTF-8 gives a code point: one up to U+007F, two
    up to U+07FF, three up to U+FFFF, four beyond. *)
Definition utf8_width (c : N) : nat :=
  if (c <? 0x80)%N then 1
  else if (c <? 0x800)%N then 2
  else if (c <? 0x10000)%N then 3
  else 4.

(** The code points of [s] are all ASCII. *)
Definition is_ascii (s : pystr) : bool := forallb (fun c => (c <? 128)%N) s.

(** ** The try statement *)

(** Splits a hypothesis on all the records of [entry :: data] into the
    one on [entry] and the one on [data]. *)
Tactic Notation "first_record" hyp(H) "as" ident(H') :=
  cbn [forallb] in H; apply andb_prop in H as [H H'].


Lemma main_loaded rt content data :
  read_text rt = inr content ->
  json_loads rt content = inr data ->
  main rt = checks rt content data.
Proof. intros Hr Hp. unfold main. rewrite Hr. simpl. rewrite Hp. reflexivity. Qed.

Lemma main_read_fails rt exc :
  read_text rt = inl exc -> main rt = fails_with (load_message rt exc).
Proof. intros Hr. unfold main. rewrite Hr. reflexivity. Qed.

Lemma main_decode_fails rt content exc :
  read_text rt = inr content ->
  json_loads rt content = inl exc ->
  main rt = fails_with (load_message rt exc).
Proof. intros Hr Hp. unfold main. rewrite Hr. simpl. rewrite Hp. reflexivity. Qed.

(** ** The messages *)

Lemma missing_message_head l : head (missing_message l) = Some 69%N.
Proof. reflexivity. Qed.

Lemma duplicates_message_head rt l : head (duplicates_message rt l) = Some 68%N.
Proof. reflexivity. Qed.

Lemma messages_differ rt l dups : missing_message l <> duplicates_message rt dups.
Proof.
  intros H. apply (f_equal head) in H.
  rewrite missing_message_head, duplicates_message_head in H. discriminate.
Qed.

(** ** The field check *)

Section FieldCheck.

Implicit Types (data : list pyval) (entry : pyval) (d : dict) (idx i : nat).

Lemma lacks_key_required d :
  lacks_key d required_keys = negb (forallb (dict_contains d) required_keys).
Proof.
  unfold required_keys. cbn [lacks_key forallb].
  destruct (dict_contains d (lit "eco")); [|reflexivity].
  destruct (dict_contains d (lit "name")); [|reflexivity].
  destruct (dict_contains d (lit "moves")); reflexivity.
Qed.

Lemma scan_entry_spec acc idx entry :
  scan_entry acc idx entry = acc ++ (if has_required_keys entry then [] else [idx]).
Proof.
  destruct entry; cbn [scan_entry has_required_keys]; try reflexivity.
  rewrite lacks_key_required.
  destruct (forallb _ _); cbn [negb]; [now rewrite app_nil_r | reflexivity].
Qed.

Lemma enumerate_from_app {A} n (l1 l2 : list A) :
  enumerate_from n (l1 ++ l2) = enumerate_from n l1 ++ enumerate_from (n + length l1) l2.
Proof.
  revert n. induction l1 as [|x l1 IH]; intros n; cbn.
  - now rewrite Nat.add_0_r.
  - rewrite IH. now replace (S n + length l1) with (n + S (length l1)) by lia.
Qed.

Lemma missing_snoc data entry :
  missing (data ++ [entry]) = scan_entry (missing data) (length data) entry.
Proof.
  unfold missing, enumerate. rewrite enumerate_from_app, fold_left_app. reflexivity.
Qed.

Lemma filter_ext_in {A} (P Q : A -> Prop) `{!forall x, Decision (P x)}
    `{!forall x, Decision (Q x)} (l : list A) :
  (forall x, x ∈ l -> P x <-> Q x) -> filter P l = filter Q l.
Proof.
  induction l as [|x l IH]; intros Hext; [reflexivity|].
  rewrite !filter_cons.
  rewrite IH by (intros y Hy; apply Hext; now right).
  destruct (decide (P x)) as [HP|HP], (decide (Q x)) as [HQ|HQ]; try reflexivity.
  - exfalso. apply HQ, (Hext x); [left|exact HP].
  - exfalso. apply HP, (Hext x); [left|exact HQ].
Qed.

Lemma failing_indices_snoc data entry :
  failing_indices (data ++ [entry])
  = failing_indices data ++ (if has_required_keys entry then [] else [length data]).
Proof.
  unfold failing_indices.
  rewrite length_app. cbn [length]. rewrite seq_app, list.filter_app. cbn [seq].
  f_equal.
  - apply filter_ext_in. intros i Hi. apply elem_of_seq in Hi.
    unfold fails_at. rewrite lookup_app_l by lia. reflexivity.
  - rewrite filter_cons, filter_nil. unfold fails_at.
    rewrite Nat.add_0_l, list_lookup_middle by reflexivity.
    destruct (has_required_keys entry); cbn; reflexivity.
Qed.

(** The loop collects exactly the failing positions, in array order. *)
Lemma missing_failing_indices data : missing data = failing_indices data.
Proof.
  induction data as [|entry data IH] using rev_ind; [reflexivity|].
  now rewrite missing_snoc, failing_indices_snoc, scan_entry_spec, IH.
Qed.

Lemma elem_of_missing data i :
  i ∈ missing data <-> exists entry, data !! i = Some entry /\ has_required_keys entry = false.
Proof.
  rewrite missing_failing_indices. unfold failing_indices.
  rewrite list_elem_of_filter, elem_of_seq. unfold fails_at. split.
  - intros [Hf _]. destruct (data !! i) as [entry|]; [|discriminate].
    exists entry. split; [reflexivity|]. now destruct (has_required_keys entry).
  - intros (entry & Hi & Hk). rewrite Hi, Hk. split; [reflexivity|].
    apply lookup_lt_Some in Hi. lia.
Qed.

Lemma missing_nil data : missing data = [] <-> forallb has_required_keys data = true.
Proof.
  rewrite forallb_forall. split.
  - intros Hm entry Hin.
    apply list_elem_of_In, list_elem_of_lookup in Hin as [i Hi].
    destruct (has_required_keys entry) eqn:Hk; [reflexivity|].
    assert (i ∈ missing data) as Hmem by (apply elem_of_missing; eauto).
    rewrite Hm in Hmem. now apply not_elem_of_nil in Hmem.
  - intros Hall. destruct (missing data) as [|i l] eqn:Hm; [reflexivity|].
    assert (i ∈ missing data) as Hmem by (rewrite Hm; left).
    apply elem_of_missing in Hmem as (entry & Hi & Hk).
    rewrite Hall in Hk; [discriminate|].
    apply list_elem_of_In, list_elem_of_lookup. eauto.
Qed.

End FieldCheck.

(** The run of the checks once the field check has found something. *)
Lemma checks_missing rt content data :
  missing data <> [] ->
  checks rt content (PyList data) = fails_with (missing_message (missing data)).
Proof.
  intros Hm. cbn [checks]. destruct (missing data); [contradiction|reflexivity].
Qed.

(** The run of the checks once the field check has passed. *)
Lemma checks_passed rt content data :
  missing data = [] ->
  checks rt content (PyList data) =
    match Counter data with
    | inl exc => escapes exc
    | inr move_counts =>
        match duplicates move_counts with
        | [] =>
            match encode_utf8 content with
            | inl exc => escapes exc
            | inr bytes =>
                Run [entries_line (length data); size_line (length bytes)] [] (ret 0%Z)
            end
        | dups => fails_with (duplicates_message rt dups)
        end
    end.
Proof.
  intros Hm. cbn [checks]. rewrite Hm.
  destruct (Counter data) as [exc|mc]; [reflexivity|].
  destruct (duplicates mc); reflexivity.
Qed.

(** ** The counter *)

Section Counting.

Implicit Types (mc : counter) (k a b : hashable) (keys : list hashable).

Lemma same_key_true a b : same_key a b = true <-> key_class_of a = key_class_of b.
Proof. unfold same_key. apply bool_decide_eq_true. Qed.

Lemma same_key_false a b : same_key a b = false <-> key_class_of a <> key_class_of b.
Proof. unfold same_key. apply bool_decide_eq_false. Qed.

Lemma same_key_refl a : same_key a a = true.
Proof. now apply same_key_true. Qed.

(** Only a string is the same key as a string, and only the same one. *)
Lemma class_str k s : key_class_of k = KStr s -> k = HStr s.
Proof.
  destruct k as [|b|z|f|t]; cbn; try discriminate.
  - destruct b; cbn; discriminate.
  - destruct z as [|p|p]; cbn; try discriminate;
      unfold dyadic; destruct (strip_twos p 0); discriminate.
  - destruct f as [?|?| |sg m e]; cbn; try discriminate.
    unfold dyadic. destruct (strip_twos m e). discriminate.
  - now intros [= ->].
Qed.

Lemma occurrences_snoc k keys k' :
  occurrences k (keys ++ [k']) = occurrences k keys + (if same_key k k' then 1 else 0).
Proof.
  unfold occurrences. rewrite list.filter_app, length_app. f_equal.
  rewrite filter_cons, filter_nil. destruct (same_key k k'); reflexivity.
Qed.

Lemma occurrences_class k k' keys :
  key_class_of k = key_class_of k' -> occurrences k keys = occurrences k' keys.
Proof.
  intros Hc. unfold occurrences. f_equal. apply filter_ext_in. intros x _.
  rewrite !same_key_true. now rewrite Hc.
Qed.

Lemma occurrences_zero k keys :
  key_class_of k ∉ key_class_of <$> keys -> occurrences k keys = 0.
Proof.
  intros Hn. unfold occurrences.
  induction keys as [|x keys IH]; [reflexivity|].
  rewrite fmap_cons, not_elem_of_cons in Hn. destruct Hn as [Hx Hn].
  rewrite filter_cons_False; [now apply IH|].
  rewrite same_key_true. congruence.
Qed.

Lemma occurrences_elem k keys : k ∈ keys -> 1 <= occurrences k keys.
Proof.
  intros Hin. unfold occurrences.
  assert (k ∈ filter (fun k' => same_key k k' = true) keys) as Hf
    by (apply list_elem_of_filter; split; [apply same_key_refl | exact Hin]).
  destruct (filter _ keys); [now apply not_elem_of_nil in Hf | cbn; lia].
Qed.

(** With distinct keys, each occurs once. *)
Lemma occurrences_distinct k keys :
  distinct_keys keys -> occurrences k keys <= 1.
Proof.
  unfold distinct_keys, occurrences. induction keys as [|x keys IH]; [cbn; lia|].
  intros Hnd. rewrite fmap_cons in Hnd. apply NoDup_cons in Hnd as [Hx Hnd].
  rewrite filter_cons.
  destruct (decide (same_key k x = true)) as [Hs|Hs]; [|now apply IH].
  apply same_key_true in Hs. rewrite <- Hs in Hx.
  pose proof (occurrences_zero k keys Hx) as Hz. unfold occurrences in Hz.
  cbn. rewrite Hz. lia.
Qed.

Lemma counter_add_classes mc k :
  classes (counter_add mc k)
  = if decide (key_class_of k ∈ classes mc) then classes mc
    else classes mc ++ [key_class_of k].
Proof.
  unfold classes. induction mc as [|[k0 n0] mc IH]; cbn [counter_add].
  - rewrite decide_False by apply not_elem_of_nil. reflexivity.
  - destruct (same_key k0 k) eqn:Hs.
    + apply same_key_true in Hs. rewrite !fmap_cons. cbn [fst].
      rewrite decide_True by (rewrite Hs; left). reflexivity.
    + apply same_key_false in Hs. rewrite !fmap_cons. cbn [fst]. rewrite IH.
      destruct (decide (key_class_of k ∈ _ <$> mc)) as [Hin|Hin].
      * rewrite decide_True by now right. reflexivity.
      * rewrite decide_False; [reflexivity|].
        rewrite not_elem_of_cons. split; [congruence | exact Hin].
Qed.

Lemma counter_add_NoDup mc k :
  NoDup (classes mc) -> NoDup (classes (counter_add mc k)).
Proof.
  intros Hnd. rewrite counter_add_classes.
  destruct (decide _) as [Hin|Hin]; [exact Hnd|].
  apply NoDup_app. split; [exact Hnd|]. split.
  - intros c Hc Hc'. apply list_elem_of_singleton in Hc'. now subst.
  - apply NoDup_singleton.
Qed.

Lemma elem_of_classes mc k n : (k, n) ∈ mc -> key_class_of k ∈ classes mc.
Proof.
  intros Hin. unfold classes.
  apply (list_elem_of_fmap_2 (fun kn : hashable * nat => key_class_of kn.1)) in Hin.
  exact Hin.
Qed.

(** What a counter holds after one more key. *)
Lemma elem_of_counter_add mc k k' n' :
  NoDup (classes mc) ->
  (k', n') ∈ counter_add mc k <->
    (key_class_of k' <> key_class_of k /\ (k', n') ∈ mc)
    \/ (key_class_of k' = key_class_of k /\ exists n, n' = S n /\ (k', n) ∈ mc)
    \/ (k' = k /\ n' = 1 /\ key_class_of k ∉ classes mc).
Proof.
  induction mc as [|[k0 n0] mc IH]; intros Hnd; cbn [counter_add].
  - rewrite list_elem_of_singleton. split.
    + intros [= -> ->]. right. right. repeat split. apply not_elem_of_nil.
    + intros [[_ H]|[(_ & n & _ & H)|(-> & -> & _)]];
        [now apply not_elem_of_nil in H | now apply not_elem_of_nil in H | reflexivity].
  - unfold classes in Hnd. rewrite fmap_cons in Hnd. cbn [fst] in Hnd.
    apply NoDup_cons in Hnd as [Hk0 Hnd]. fold (classes mc) in Hk0, Hnd.
    specialize (IH Hnd).
    destruct (same_key k0 k) eqn:Hs.
    + apply same_key_true in Hs. split.
      * intros Hin. apply elem_of_cons in Hin as [[= -> ->]|Hin].
        -- right. left. split; [exact Hs|]. exists n0. split; [reflexivity|left].
        -- left. split; [|now right].
           intros Hc. apply Hk0. rewrite Hs, <- Hc. eapply elem_of_classes, Hin.
      * intros [[Hc Hin]|[(Hc & n & -> & Hin)|(-> & -> & Hn)]].
        -- apply elem_of_cons in Hin as [[= -> ->]|Hin]; [congruence|now right].
        -- apply elem_of_cons in Hin as [[= -> ->]|Hin]; [left|].
           exfalso. apply Hk0. rewrite Hs, <- Hc. eapply elem_of_classes, Hin.
        -- exfalso. apply Hn. unfold classes. rewrite fmap_cons. cbn [fst].
           rewrite Hs. left.
    + apply same_key_false in Hs. split.
      * intros Hin. apply elem_of_cons in Hin as [[= -> ->]|Hin].
        -- left. split; [exact Hs | left].
        -- apply IH in Hin as [[Hc Hin]|[(Hc & n & -> & Hin)|(-> & -> & Hn)]].
           ++ left. split; [exact Hc | now right].
           ++ right. left. split; [exact Hc|]. exists n. split; [reflexivity | now right].
           ++ right. right. repeat split. unfold classes. rewrite fmap_cons. cbn [fst].
              apply not_elem_of_cons. split; [congruence | exact Hn].
      * intros [[Hc Hin]|[(Hc & n & -> & Hin)|(-> & -> & Hn)]].
        -- apply elem_of_cons in Hin as [[= -> ->]|Hin]; [left|].
           right. apply IH. left. now split.
        -- apply elem_of_cons in Hin as [[= -> ->]|Hin]; [congruence|].
           right. apply IH. right. left. split; [exact Hc|]. exists n. now split.
        -- right. apply IH. right. right. repeat split. unfold classes in Hn.
           rewrite fmap_cons in Hn. apply not_elem_of_cons in Hn. apply Hn.
Qed.

Lemma counts_nil : counts [] [].
Proof.
  split; [apply NoDup_nil_2|]. split.
  - intros k n H. now apply not_elem_of_nil in H.
  - intros k H. now apply not_elem_of_nil in H.
Qed.

Lemma counts_snoc mc keys k :
  counts mc keys -> counts (counter_add mc k) (keys ++ [k]).
Proof.
  intros (Hnd & Hcount & Hall). split; [now apply counter_add_NoDup|]. split.
  - intros k' n' Hin. apply elem_of_counter_add in Hin; [|exact Hnd].
    rewrite elem_of_app, list_elem_of_singleton, occurrences_snoc.
    destruct Hin as [[Hc Hin]|[(Hc & n & -> & Hin)|(-> & -> & Hn)]].
    + apply Hcount in Hin as [Hk ->]. split; [now left|].
      apply same_key_false in Hc. rewrite Hc. lia.
    + apply Hcount in Hin as [Hk ->]. split; [now left|].
      apply same_key_true in Hc. rewrite Hc. lia.
    + split; [now right|]. rewrite same_key_refl, occurrences_zero; [reflexivity|].
      intros Hin. apply list_elem_of_fmap in Hin as (x & Hx & Hin).
      apply Hn. rewrite Hx. now apply Hall.
  - intros k' Hin. rewrite counter_add_classes.
    apply elem_of_app in Hin as [Hin|Hin%list_elem_of_singleton].
    + apply Hall in Hin. destruct (decide _); [exact Hin|].
      apply elem_of_app. now left.
    + subst k'. destruct (decide _) as [Hk|Hk]; [exact Hk|].
      apply elem_of_app. right. now apply list_elem_of_singleton.
Qed.

Lemma tally_app mc keys1 keys2 : tally mc (keys1 ++ keys2) = tally (tally mc keys1) keys2.
Proof. apply fold_left_app. Qed.

Lemma tally_counts keys : counts (tally [] keys) keys.
Proof.
  induction keys as [|k keys IH] using rev_ind; [apply counts_nil|].
  rewrite tally_app. now apply counts_snoc.
Qed.

End Counting.

(** ** Counting the moves of a dataset *)

Section DuplicateCheck.

Implicit Types (mc : counter) (data : list pyval) (entry : pyval).

Lemma dict_contains_get d key :
  dict_contains d key = true <-> is_Some (dict_get d key).
Proof.
  unfold dict_contains. induction d as [|[k v] d IH]; cbn.
  - split; [discriminate | intros [? [=]]].
  - destruct (decide (k = key)) as [->|Hne].
    + rewrite bool_decide_eq_true_2 by reflexivity. cbn. split; eauto.
    + rewrite bool_decide_eq_false_2 by exact Hne. cbn. exact IH.
Qed.

Lemma has_required_keys_moves entry :
  has_required_keys entry = true -> is_Some (moves_of entry).
Proof.
  destruct entry; cbn [has_required_keys moves_of]; try discriminate.
  unfold required_keys. cbn [forallb]. intros H.
  apply dict_contains_get.
  apply andb_prop in H as [_ H]. apply andb_prop in H as [_ H].
  now apply andb_prop in H as [H _].
Qed.

Lemma moves_key_hashable entry :
  has_required_keys entry = true -> moves_hashable entry = true ->
  exists v k, moves_of entry = Some v /\ as_key v = inr k /\ moves_key entry = Some k.
Proof.
  intros Hk Hh. destruct (has_required_keys_moves entry Hk) as [v Hv].
  unfold moves_hashable, moves_key in *. rewrite Hv in *.
  exists v. destruct v; try discriminate; cbn; eauto.
Qed.

Lemma moves_key_unhashable entry :
  has_required_keys entry = true -> moves_hashable entry = false ->
  exists v, moves_of entry = Some v
            /\ as_key v = inl (PyExc "TypeError"
                                 (lit "unhashable type: '" ++ lit (type_name v) ++ lit "'")).
Proof.
  intros Hk Hh. destruct (has_required_keys_moves entry Hk) as [v Hv].
  unfold moves_hashable in Hh. rewrite Hv in Hh.
  exists v. destruct v; try discriminate; cbn; eauto.
Qed.

Lemma getitem_moves entry v :
  has_required_keys entry = true -> moves_of entry = Some v ->
  getitem entry (lit "moves") = inr v.
Proof.
  destruct entry; cbn; try discriminate. intros _ Hv. now rewrite Hv.
Qed.

Lemma moves_keys_cons entry data :
  moves_keys (entry :: data)
  = match moves_key entry with
    | Some k => k :: moves_keys data
    | None => moves_keys data
    end.
Proof. reflexivity. Qed.

(** On records whose moves can all be hashed the counter is the tally of
    their keys. *)
Lemma count_moves_tally mc data :
  forallb has_required_keys data = true ->
  forallb moves_hashable data = true ->
  count_moves mc data = inr (tally mc (moves_keys data)).
Proof.
  revert mc. induction data as [|entry data IH]; intros mc Hk Hh; [reflexivity|].
  first_record Hk as Hks. first_record Hh as Hhs.
  destruct (moves_key_hashable entry Hk Hh) as (v & k & Hv & Hkey & Hmk).
  cbn [count_moves]. rewrite (getitem_moves entry v Hk Hv). cbn [bind].
  rewrite Hkey. cbn [bind]. rewrite IH by assumption.
  rewrite moves_keys_cons, Hmk. reflexivity.
Qed.

(** Moves that cannot be hashed make the counter raise. *)
Lemma count_moves_raises mc data :
  forallb has_required_keys data = true ->
  forallb moves_hashable data = false ->
  exists exc, count_moves mc data = inl exc /\ exc_class exc = "TypeError"%string.
Proof.
  revert mc. induction data as [|entry data IH]; intros mc Hk Hh; [discriminate|].
  first_record Hk as Hks. cbn [forallb] in Hh.
  cbn [count_moves].
  destruct (moves_hashable entry) eqn:He.
  - destruct (moves_key_hashable entry Hk He) as (v & k & Hv & Hkey & Hmk).
    rewrite (getitem_moves entry v Hk Hv). cbn [bind]. rewrite Hkey. cbn [bind].
    apply IH; assumption.
  - destruct (moves_key_unhashable entry Hk He) as (v & Hv & Hkey).
    rewrite (getitem_moves entry v Hk Hv). cbn [bind]. rewrite Hkey. cbn [bind].
    eexists. split; reflexivity.
Qed.

Lemma elem_of_duplicates mc d :
  d ∈ duplicates mc <-> exists n, (d, n) ∈ mc /\ 1 < n.
Proof.
  unfold duplicates. change (map fst ?l) with (fst <$> l).
  rewrite list_elem_of_fmap. split.
  - intros ([k n] & -> & Hin). apply list_elem_of_filter in Hin as [Hn Hin]. eauto.
  - intros (n & Hin & Hn). exists (d, n). split; [reflexivity|].
    apply list_elem_of_filter. now split.
Qed.

Lemma duplicates_distinct mc : NoDup (classes mc) -> distinct_keys (duplicates mc).
Proof.
  unfold distinct_keys, duplicates, classes. change (map fst ?l) with (fst <$> l).
  induction mc as [|[k n] mc IH]; intros Hnd; [apply NoDup_nil_2|].
  rewrite fmap_cons in Hnd. apply NoDup_cons in Hnd as [Hk Hnd]. cbn [fst] in Hk.
  rewrite filter_cons. destruct (decide _); [|now apply IH].
  rewrite !fmap_cons. cbn [fst]. apply NoDup_cons. split; [|now apply IH].
  intros Hin. apply Hk.
  apply list_elem_of_fmap in Hin as (d & -> & Hin).
  apply list_elem_of_fmap in Hin as ([d' n'] & -> & Hin).
  apply list_elem_of_filter in Hin as [_ Hin].
  apply (list_elem_of_fmap_2 (fun kn : hashable * nat => key_class_of kn.1)) in Hin.
  exact Hin.
Qed.

(** Two positions holding the same key make it occur twice. *)
Lemma occurrences_two keys i j k k' :
  i <> j -> keys !! i = Some k -> keys !! j = Some k' -> same_key k k' = true ->
  2 <= occurrences k keys.
Proof.
  intros Hij Hi Hj Hs.
  assert (forall l, k' ∈ l -> 1 <= occurrences k l) as Hone.
  { intros l Hin. rewrite (occurrences_class k k') by now apply same_key_true.
    now apply occurrences_elem. }
  rewrite <- (take_drop_middle keys i k Hi) in Hj |- *.
  unfold occurrences at 1. rewrite list.filter_app, length_app, filter_cons_True
    by apply same_key_refl.
  cbn [length]. fold (occurrences k (take i keys)) (occurrences k (drop (S i) keys)).
  apply list_elem_of_lookup_2 in Hj as Hin.
  pose proof (lookup_lt_Some _ _ _ Hi) as Hlt.
  destruct (decide (j < i)) as [Hji|Hji].
  - rewrite lookup_app_l in Hj by (rewrite length_take; lia).
    apply list_elem_of_lookup_2, Hone in Hj. lia.
  - rewrite lookup_app_r in Hj by (rewrite length_take; lia).
    rewrite length_take, Nat.min_l in Hj by lia.
    destruct (j - i) as [|m] eqn:Hm; [lia|]. cbn in Hj.
    apply list_elem_of_lookup_2, Hone in Hj. lia.
Qed.

Lemma moves_keys_lookup data i entry :
  forallb has_required_keys data = true ->
  forallb moves_hashable data = true ->
  data !! i = Some entry ->
  exists k, moves_key entry = Some k /\ moves_keys data !! i = Some k.
Proof.
  revert i. induction data as [|e data IH]; intros i Hk Hh Hi; [discriminate|].
  first_record Hk as Hks. first_record Hh as Hhs.
  destruct (moves_key_hashable e Hk Hh) as (v & k & Hv & Hkey & Hmk).
  rewrite moves_keys_cons, Hmk.
  destruct i as [|i]; cbn in Hi |- *.
  - injection Hi as <-. eauto.
  - now apply IH.
Qed.

Lemma length_moves_keys data :
  forallb has_required_keys data = true ->
  forallb moves_hashable data = true ->
  length (moves_keys data) = length data.
Proof.
  induction data as [|e data IH]; intros Hk Hh; [reflexivity|].
  first_record Hk as Hks. first_record Hh as Hhs.
  destruct (moves_key_hashable e Hk Hh) as (v & k & Hv & Hkey & Hmk).
  rewrite moves_keys_cons, Hmk. cbn. f_equal. now apply IH.
Qed.

End DuplicateCheck.

(** ** The byte size *)

Lemma encode_from_well_formed pos s :
  well_formed s = true -> exists bytes, encode_from pos s = inr bytes.
Proof.
  revert pos. induction s as [|c s IH]; intros pos Hw; [now exists []|].
  cbn [well_formed forallb] in Hw. apply andb_prop in Hw as [Hc Hw].
  apply negb_true_iff in Hc. destruct (IH (S pos) Hw) as [tail Htail].
  cbn [encode_from]. unfold utf8_encode_char. rewrite Hc.
  repeat destruct (_ <? _)%N; rewrite Htail; cbn; eauto.
Qed.

Lemma encode_well_formed s :
  well_formed s = true -> exists bytes, encode_utf8 s = inr bytes.
Proof. apply encode_from_well_formed. Qed.

(** ** The model at work *)

(** The text of the Polish scenario, code point by code point. *)
Example polish_text :
  Sample.polish
  = [91; 123; 34; 101; 99; 111; 34; 58; 34; 65; 48; 48; 34; 44;
     34; 110; 97; 109; 101; 34; 58; 34; 80; 111; 108; 105; 115; 104; 34; 44;
     34; 109; 111; 118; 101; 115; 34; 58; 34; 49; 46; 98; 52; 34; 125; 93]%N.
Proof. reflexivity. Qed.

(** A code point outside ASCII takes more than one byte. *)
Example accent_two_bytes : encode_utf8 [82; 233]%N = inr [82; 195; 169]%N.
Proof. reflexivity. Qed.

Example three_openings_lengths :
  length Sample.three_openings = 137
  /\ (exists bytes, encode_utf8 Sample.three_openings = inr bytes /\ length bytes = 138).
Proof. split; [reflexivity|]. eexists. split; reflexivity. Qed.

(** [True], [1] and [1.0] are one dictionary key; the string ["1"] is
    another. *)
Example true_is_one :
  same_key (HBool true) (HInt 1) = true
  /\ same_key (HInt 1) (HFloat (S754_finite false 4503599627370496 (-52))) = true
  /\ same_key (HFloat (S754_zero true)) (HBool false) = true
  /\ same_key (HStr (lit "1")) (HInt 1) = false.
Proof. repeat split. Qed.

(** Moves [1] and [true] are reported as one duplicated value, under the
    key met first. *)
Example one_and_true_collide :
  main (Sample.on_file
          (Sample.text "[{'eco':'A00','name':'Polish','moves':1},{'eco':'A02','name':'Bird','moves':true}]"))
  = fails_with (lit "Duplicate move strings found (1): [1]").
Proof. reflexivity. Qed.

(** Every failing position is collected, not the first alone. *)
Example collects_all :
  missing [PyInt 7;
           PyDict [(lit "eco", PyNone); (lit "name", PyNone); (lit "moves", PyNone)];
           PyDict [(lit "eco", PyNone); (lit "moves", PyNone)];
           PyList []]
  = [0; 2; 3].
Proof. reflexivity. Qed.

(** The positions reported are those of the array as it is ordered. *)
Example array_order_reported :
  missing [PyInt 7; PyDict [(lit "eco", PyNone); (lit "name", PyNone); (lit "moves", PyNone)]]
  = [0]
  /\ missing [PyDict [(lit "eco", PyNone); (lit "name", PyNone); (lit "moves", PyNone)]; PyInt 7]
     = [1].
Proof. split; reflexivity. Qed.

(** An exception that leaves [main] ends the script with status 1 and a
    traceback; a code returned is the exit status. *)
Lemma script_returned rt code :
  outcome (main rt) = ret code ->
  exit_status (script rt) = code /\ uncaught (script rt) = None.
Proof. unfold script. now intros ->. Qed.

(** ** Load and decode failures *)

(** C6 (amended). A text that the decoder refuses makes [main] return 1 after one
    line on the error channel, the decoder's own message at its end; a
    file that cannot be read is reported the same way on the same
    channel, with the message of the read that failed. The two failures
    are told apart by the exception whose text the line carries. *)
Theorem decode_failure_reported rt content exc rt' exc' :
  read_text rt = inr content ->
  json_loads rt content = inl exc ->
  read_text rt' = inl exc' ->
  main rt = {| stdout := [];
               stderr := [lit "Failed to load " ++ data_path rt ++ lit ": " ++ exc_str exc];
               outcome := ret 1%Z |}
  /\ main rt' = {| stdout := [];
                   stderr := [lit "Failed to load " ++ data_path rt' ++ lit ": " ++ exc_str exc'];
                   outcome := ret 1%Z |}.
Proof.
  intros Hr Hp Hr'. split.
  - now rewrite (main_decode_fails rt content exc).
  - now rewrite (main_read_fails rt' exc').
Qed.

Lemma decode_failure_reported_truncated :
  main (Sample.on_file Sample.truncated)
  = fails_with (lit "Failed to load /srv/chess/assets/data/eco_lite.json: Expecting property name enclosed in double quotes: line 1 column 15 (char 14)")
  /\ main Sample.no_file
     = fails_with (lit "Failed to load /srv/chess/assets/data/eco_lite.json: [Errno 2] No such file or directory: '/srv/chess/assets/data/eco_lite.json'").
Proof.
  apply (decode_failure_reported (Sample.on_file Sample.truncated) Sample.truncated
           (Sample.JSONDecodeError Sample.truncated
              "Expecting property name enclosed in double quotes" 14)
           Sample.no_file
           (PyExc "FileNotFoundError"
              (lit "[Errno 2] No such file or directory: '/srv/chess/assets/data/eco_lite.json'")));
    reflexivity.
Defined.

(** C6 as it was stated fails: a text with the constant [NaN] is not a
    JSON text, yet [json.loads] decodes it, to the float [nan]; no parse
    failure is reported. With [NaN] for the moves of its one record the
    dataset passes and [main] returns 0; with [NaN] alone in the file the
    line printed is that of the shape check. *)
Lemma nan_moves_accepted :
  Grammar.valid Grammar.nan_moves = false
  /\ read_text (with_decoded (Sample.on_file Grammar.nan_moves) Grammar.nan_moves_decoded)
     = inr Grammar.nan_moves
  /\ main (with_decoded (Sample.on_file Grammar.nan_moves) Grammar.nan_moves_decoded)
     = {| stdout := [lit "ECO-lite entries: 1"; lit "Approximate file size: 43 bytes"];
          stderr := [];
          outcome := ret 0%Z |}
  /\ Grammar.valid Grammar.nan_alone = false
  /\ main (with_decoded (Sample.on_file Grammar.nan_alone) (PyFloat S754_nan))
     = fails_with (lit "Dataset root must be a JSON array.").
Proof. repeat split. Qed.

(** ** The shape check *)

(** C5 (amended). A decoded root that is not an array, whatever it holds,
    makes [main] return 1 after the one line
    [Dataset root must be a JSON array.] on the error channel, and
    nothing else is checked or printed. *)
Theorem root_not_array rt content data :
  read_text rt = inr content ->
  json_loads rt content = inr data ->
  is_array data = false ->
  main rt = {| stdout := [];
               stderr := [lit "Dataset root must be a JSON array."];
               outcome := ret 1%Z |}.
Proof.
  intros Hr Hp Hs. rewrite (main_loaded rt content data Hr Hp).
  destruct data; try reflexivity. discriminate.
Qed.

Lemma root_not_array_object :
  main (Sample.on_file Sample.object_root)
  = fails_with (lit "Dataset root must be a JSON array.").
Proof.
  apply (root_not_array (Sample.on_file Sample.object_root) Sample.object_root
           (PyDict [(lit "eco", PyStr (lit "A00")); (lit "name", PyStr (lit "Polish"));
                    (lit "moves", PyStr (lit "1.b4"))]));
    reflexivity.
Defined.

(** C5 as it was stated fails: the line printed for an object at the root
    is not [dataset root must be an array]. *)
Lemma root_not_array_other_words :
  json_loads (Sample.on_file Sample.object_root) Sample.object_root
  = inr (PyDict [(lit "eco", PyStr (lit "A00")); (lit "name", PyStr (lit "Polish"));
                 (lit "moves", PyStr (lit "1.b4"))])
  /\ stderr (main (Sample.on_file Sample.object_root))
     <> [lit "dataset root must be an array"].
Proof. split; [reflexivity|]. vm_compute. discriminate. Qed.

(** ** The report *)

(** C10. A text that decodes to the empty array passes every stage:
    [main] returns 0 and prints an entry count of 0 and the number of
    bytes of the text. *)
Theorem empty_array_passes rt content bytes :
  read_text rt = inr content ->
  json_loads rt content = inr (PyList []) ->
  encode_utf8 content = inr bytes ->
  main rt = {| stdout := [lit "ECO-lite entries: 0";
                          lit "Approximate file size: " ++ str_of_nat (length bytes)
                          ++ lit " bytes"];
               stderr := [];
               outcome := ret 0%Z |}.
Proof.
  intros Hr Hp He. rewrite (main_loaded rt content _ Hr Hp).
  rewrite checks_passed by reflexivity. cbn [Counter count_moves ret duplicates].
  cbn. rewrite He. reflexivity.
Qed.

Lemma empty_array_passes_two_bytes :
  main (Sample.on_file Sample.empty_array)
  = {| stdout := [lit "ECO-lite entries: 0"; lit "Approximate file size: 2 bytes"];
       stderr := [];
       outcome := ret 0%Z |}.
Proof.
  apply (empty_array_passes (Sample.on_file Sample.empty_array) Sample.empty_array [91; 93]%N);
    reflexivity.
Defined.

(** C8 (amended). For the text of the one Polish record [main] returns 0
    and prints [ECO-lite entries: 1] and [Approximate file size: 46 bytes],
    46 being the length of the text in UTF-8. *)
Theorem polish_report rt :
  read_text rt = inr Sample.polish ->
  json_loads rt Sample.polish
  = inr (PyList [PyDict [(lit "eco", PyStr (lit "A00")); (lit "name", PyStr (lit "Polish"));
                         (lit "moves", PyStr (lit "1.b4"))]]) ->
  main rt = {| stdout := [lit "ECO-lite entries: 1"; lit "Approximate file size: 46 bytes"];
               stderr := [];
               outcome := ret 0%Z |}
  /\ exists bytes, encode_utf8 Sample.polish = inr bytes /\ length bytes = 46.
Proof.
  intros Hr Hp. rewrite (main_loaded rt _ _ Hr Hp). split; [reflexivity|].
  eexists. split; reflexivity.
Qed.

Lemma polish_report_on_file :
  main (Sample.on_file Sample.polish)
  = {| stdout := [lit "ECO-lite entries: 1"; lit "Approximate file size: 46 bytes"];
       stderr := [];
       outcome := ret 0%Z |}
  /\ exists bytes, encode_utf8 Sample.polish = inr bytes /\ length bytes = 46.
Proof. apply (polish_report (Sample.on_file Sample.polish)); reflexivity. Defined.

(** C8 as it was stated fails: the second line does not say 45 bytes. *)
Lemma polish_report_not_45 :
  json_loads (Sample.on_file Sample.polish) Sample.polish
  = inr (PyList [PyDict [(lit "eco", PyStr (lit "A00")); (lit "name", PyStr (lit "Polish"));
                         (lit "moves", PyStr (lit "1.b4"))]])
  /\ length Sample.polish = 46
  /\ stdout (main (Sample.on_file Sample.polish))
     <> [lit "ECO-lite entries: 1"; lit "Approximate file size: 45 bytes"].
Proof. repeat split. vm_compute. discriminate. Qed.

(** ** The field error *)

Lemma filter_none {A} (P : A -> Prop) `{!forall x, Decision (P x)} (l : list A) :
  (forall x, x ∈ l -> ~ P x) -> filter P l = [].
Proof.
  induction l as [|x l IH]; intros Hn; [reflexivity|].
  rewrite filter_cons_False by (apply Hn; left).
  apply IH. intros y Hy. apply Hn. now right.
Qed.

Lemma failing_indices_single data i :
  fails_at data i = true ->
  (forall j, j <> i -> fails_at data j = false) ->
  failing_indices data = [i].
Proof.
  intros Hi Hothers.
  assert (i < length data) as Hlt.
  { unfold fails_at in Hi. destruct (data !! i) eqn:E; [|discriminate].
    now apply lookup_lt_Some in E. }
  unfold failing_indices.
  replace (length data) with (i + S (length data - S i)) by lia.
  rewrite seq_app. cbn [seq].
  rewrite list.filter_app, filter_cons_True by exact Hi.
  rewrite !filter_none; [reflexivity| |].
  - intros j Hj. apply elem_of_seq in Hj. rewrite Hothers by lia. discriminate.
  - intros j Hj. apply elem_of_seq in Hj. rewrite Hothers by lia. discriminate.
Qed.

Lemma fails_with_inj line line' : fails_with line = fails_with line' -> line = line'.
Proof. now intros [= ->]. Qed.

(** After a field check that passed, [main] does not end on the line of
    the field error. *)
Lemma checks_passed_no_field_error rt content data l :
  missing data = [] ->
  checks rt content (PyList data) <> fails_with (missing_message l).
Proof.
  intros Hm. rewrite checks_passed by exact Hm.
  destruct (Counter data) as [exc|mc]; [discriminate|].
  destruct (duplicates mc) as [|d dups].
  - destruct (encode_utf8 content); discriminate.
  - intros H. apply fails_with_inj in H. symmetry in H. now apply messages_differ in H.
Qed.

(** C2. The field check visits the whole array and its list holds
    exactly the positions, in order, of the elements that are not an
    object or lack one of [eco], [name], [moves]; [main] ends on the field
    error with this list exactly when the list is not empty; for one
    element that is not an object among records that have the keys, the
    list is that position alone. *)
Theorem field_check_collects rt content data :
  read_text rt = inr content ->
  json_loads rt content = inr (PyList data) ->
  missing data = failing_indices data
  /\ (main rt = {| stdout := [];
                   stderr := [lit "Entries missing required keys: "
                              ++ repr_list (map str_of_nat (missing data))];
                   outcome := ret 1%Z |}
      <-> missing data <> [])
  /\ (forall before entry after,
        data = before ++ entry :: after ->
        is_object entry = false ->
        forallb has_required_keys (before ++ after) = true ->
        missing data = [length before]
        /\ main rt = {| stdout := [];
                        stderr := [lit "Entries missing required keys: ["
                                   ++ str_of_nat (length before) ++ lit "]"];
                        outcome := ret 1%Z |}).
Proof.
  intros Hr Hp. rewrite (main_loaded rt content _ Hr Hp).
  split; [apply missing_failing_indices|]. split.
  - split.
    + intros Hrun Hm.
      apply (checks_passed_no_field_error rt content data (missing data) Hm). exact Hrun.
    + apply checks_missing.
  - intros before entry after -> Hobj Hall.
    assert (missing (before ++ entry :: after) = [length before]) as Hm.
    { rewrite missing_failing_indices. apply failing_indices_single.
      - unfold fails_at. rewrite list_lookup_middle by reflexivity.
        destruct entry; try reflexivity. discriminate.
      - intros j Hj. unfold fails_at.
        destruct ((before ++ entry :: after) !! j) as [e|] eqn:E; [|reflexivity].
        rewrite forallb_forall in Hall. rewrite Hall; [reflexivity|].
        apply list_elem_of_In, elem_of_app.
        destruct (decide (j < length before)) as [Hlt|Hge].
        + rewrite lookup_app_l in E by exact Hlt. left. eapply list_elem_of_lookup_2, E.
        + rewrite lookup_app_r in E by lia.
          destruct (j - length before) as [|m] eqn:Hjm; [lia|]. cbn in E.
          right. eapply list_elem_of_lookup_2, E. }
    split; [exact Hm|]. rewrite checks_missing by (rewrite Hm; discriminate).
    rewrite Hm. reflexivity.
Qed.

Lemma field_check_collects_stray_number :
  missing [PyDict [(lit "eco", PyStr (lit "A00")); (lit "name", PyStr (lit "Polish"));
                   (lit "moves", PyStr (lit "1.b4"))];
           PyInt 7;
           PyDict [(lit "eco", PyStr (lit "A02")); (lit "name", PyStr (lit "Bird"));
                   (lit "moves", PyStr (lit "1.f4"))]] = [1]
  /\ main (Sample.on_file Sample.stray_number)
     = fails_with (lit "Entries missing required keys: [1]").
Proof.
  pose proof (field_check_collects (Sample.on_file Sample.stray_number) Sample.stray_number
                [PyDict [(lit "eco", PyStr (lit "A00")); (lit "name", PyStr (lit "Polish"));
                         (lit "moves", PyStr (lit "1.b4"))];
                 PyInt 7;
                 PyDict [(lit "eco", PyStr (lit "A02")); (lit "name", PyStr (lit "Bird"));
                         (lit "moves", PyStr (lit "1.f4"))]]
                eq_refl eq_refl) as (_ & _ & Hone).
  exact (Hone [PyDict [(lit "eco", PyStr (lit "A00")); (lit "name", PyStr (lit "Polish"));
                       (lit "moves", PyStr (lit "1.b4"))]]
              (PyInt 7)
              [PyDict [(lit "eco", PyStr (lit "A02")); (lit "name", PyStr (lit "Bird"));
                       (lit "moves", PyStr (lit "1.f4"))]]
              eq_refl eq_refl eq_refl).
Defined.

(** C4. When some element fails the field check [main] ends on the field
    error alone, whatever the moves of the other records are: the one line
    printed is not the duplicate error, and the counter, not being
    reached, raises nothing. The duplicate error is therefore printed only
    for data in which every element passed the field check. *)
Theorem field_error_first rt content data :
  read_text rt = inr content ->
  json_loads rt content = inr (PyList data) ->
  forallb has_required_keys data = false ->
  main rt = {| stdout := [];
               stderr := [lit "Entries missing required keys: "
                          ++ repr_list (map str_of_nat (failing_indices data))];
               outcome := ret 1%Z |}
  /\ failing_indices data <> []
  /\ (forall dups, main rt <> fails_with (duplicates_message rt dups))
  /\ (forall exc, main rt <> escapes exc).
Proof.
  intros Hr Hp Hk. rewrite (main_loaded rt content _ Hr Hp).
  assert (missing data <> []) as Hm.
  { intros Hm. apply missing_nil in Hm. congruence. }
  rewrite checks_missing by exact Hm. rewrite <- missing_failing_indices.
  split; [reflexivity|]. split; [exact Hm|]. split.
  - intros dups H. apply fails_with_inj in H. now apply messages_differ in H.
  - discriminate.
Qed.

Lemma field_error_first_missing_and_duplicate :
  main (Sample.on_file Sample.missing_and_duplicate)
  = fails_with (lit "Entries missing required keys: [1]")
  /\ failing_indices
       [PyDict [(lit "eco", PyStr (lit "A00")); (lit "name", PyStr (lit "Polish"));
                (lit "moves", PyStr (lit "1.b4"))];
        PyDict [(lit "eco", PyStr (lit "A01")); (lit "moves", PyStr (lit "1.f4"))];
        PyDict [(lit "eco", PyStr (lit "A00")); (lit "name", PyStr (lit "Sokolsky"));
                (lit "moves", PyStr (lit "1.b4"))]] <> []
  /\ (forall dups, main (Sample.on_file Sample.missing_and_duplicate)
                   <> fails_with (duplicates_message
                                    (Sample.on_file Sample.missing_and_duplicate) dups))
  /\ (forall exc, main (Sample.on_file Sample.missing_and_duplicate) <> escapes exc).
Proof.
  apply (field_error_first (Sample.on_file Sample.missing_and_duplicate)
           Sample.missing_and_duplicate
           [PyDict [(lit "eco", PyStr (lit "A00")); (lit "name", PyStr (lit "Polish"));
                    (lit "moves", PyStr (lit "1.b4"))];
            PyDict [(lit "eco", PyStr (lit "A01")); (lit "moves", PyStr (lit "1.f4"))];
            PyDict [(lit "eco", PyStr (lit "A00")); (lit "name", PyStr (lit "Sokolsky"));
                    (lit "moves", PyStr (lit "1.b4"))]]);
    reflexivity.
Defined.

(** ** The duplicate error and the report on a valid dataset *)

Lemma moves_key_str entry s :
  moves_of entry = Some (PyStr s) -> moves_key entry = Some (HStr s).
Proof. unfold moves_key. now intros ->. Qed.

Lemma Counter_tally data :
  forallb has_required_keys data = true ->
  forallb moves_hashable data = true ->
  Counter data = inr (tally [] (moves_keys data)).
Proof. apply count_moves_tally. Qed.

(** What the list of duplicates holds, for a counter that holds the
    counts of [keys]. *)
Lemma duplicates_counts mc keys :
  counts mc keys ->
  distinct_keys (duplicates mc)
  /\ (forall d, d ∈ duplicates mc -> d ∈ keys /\ 2 <= occurrences d keys)
  /\ (forall k, k ∈ keys -> 2 <= occurrences k keys ->
                exists d, d ∈ duplicates mc /\ same_key d k = true).
Proof.
  intros (Hnd & Hcount & Hall). split; [now apply duplicates_distinct|]. split.
  - intros d Hd. apply elem_of_duplicates in Hd as (n & Hin & Hn).
    apply Hcount in Hin as [Hk ->]. split; [exact Hk | lia].
  - intros k Hk Hocc. apply Hall in Hk. unfold classes in Hk.
    apply list_elem_of_fmap in Hk as ([d n] & Hc & Hin). cbn [fst] in Hc.
    exists d. split; [|now apply same_key_true].
    apply elem_of_duplicates. exists n. split; [exact Hin|].
    apply Hcount in Hin as [_ ->]. rewrite (occurrences_class d k) by congruence. lia.
Qed.

Lemma single_key (dups : list hashable) k :
  NoDup dups -> k ∈ dups -> (forall d, d ∈ dups -> d = k) -> dups = [k].
Proof.
  intros Hnd Hk Hall. destruct dups as [|a [|b l]].
  - now apply not_elem_of_nil in Hk.
  - f_equal. apply Hall. left.
  - exfalso. apply NoDup_cons in Hnd as [Ha _]. apply Ha.
    rewrite (Hall a) by left. rewrite (Hall b) by (right; left). left.
Qed.

(** C1 (amended). For a text that decodes to an array of objects that all
    have the keys [eco], [name] and [moves], whose moves are values that
    can be hashed (no array, no object) and pairwise differ as dictionary
    keys, [main] returns 0 and prints the length of the array and the
    number of bytes of the text as read, encoded in UTF-8. *)
Theorem valid_dataset_report rt content data :
  read_text rt = inr content ->
  json_loads rt content = inr (PyList data) ->
  well_formed content = true ->
  forallb has_required_keys data = true ->
  forallb moves_hashable data = true ->
  distinct_keys (moves_keys data) ->
  exists bytes,
    encode_utf8 content = inr bytes
    /\ main rt = {| stdout := [lit "ECO-lite entries: " ++ str_of_nat (length data);
                               lit "Approximate file size: " ++ str_of_nat (length bytes)
                               ++ lit " bytes"];
                    stderr := [];
                    outcome := ret 0%Z |}.
Proof.
  intros Hr Hp Hw Hk Hh Hd.
  destruct (encode_well_formed content Hw) as [bytes He]. exists bytes.
  split; [exact He|].
  rewrite (main_loaded rt content _ Hr Hp).
  rewrite checks_passed by now apply missing_nil.
  rewrite (Counter_tally data Hk Hh).
  destruct (duplicates_counts _ _ (tally_counts (moves_keys data))) as (_ & Hdup & _).
  destruct (duplicates (tally [] (moves_keys data))) as [|d dups].
  - rewrite He. reflexivity.
  - destruct (Hdup d) as [_ Hocc]; [left|].
    pose proof (occurrences_distinct d _ Hd). lia.
Qed.

Lemma valid_dataset_report_three_openings :
  main (Sample.on_file Sample.three_openings)
  = {| stdout := [lit "ECO-lite entries: 3"; lit "Approximate file size: 138 bytes"];
       stderr := [];
       outcome := ret 0%Z |}.
Proof.
  destruct (valid_dataset_report (Sample.on_file Sample.three_openings)
              Sample.three_openings
              [PyDict [(lit "eco", PyStr (lit "A00")); (lit "name", PyStr (lit "Polish"));
                       (lit "moves", PyStr (lit "1.b4"))];
               PyDict [(lit "eco", PyStr (lit "A02")); (lit "name", PyStr (lit "Bird"));
                       (lit "moves", PyStr (lit "1.f4"))];
               PyDict [(lit "name", PyStr [82; 233; 116; 105]%N);
                       (lit "moves", PyStr (lit "1.Nf3"));
                       (lit "eco", PyStr (lit "A04"))]]
              eq_refl eq_refl eq_refl eq_refl eq_refl)
    as (bytes & He & Hrun).
  - apply (bool_decide_unpack _). vm_compute. exact I.
  - injection He as <-. exact Hrun.
Defined.

(** C1 as it was stated fails: one object with the three keys, its moves
    an array, is a dataset of pairwise distinct moves on which [main]
    does not return: the counter raises [TypeError]. *)
Lemma valid_dataset_moves_as_array :
  json_loads (Sample.on_file Sample.moves_as_array) Sample.moves_as_array
  = inr (PyList [PyDict [(lit "eco", PyStr (lit "A00")); (lit "name", PyStr (lit "Polish"));
                         (lit "moves", PyList [PyStr (lit "b4")])]])
  /\ forallb has_required_keys
       [PyDict [(lit "eco", PyStr (lit "A00")); (lit "name", PyStr (lit "Polish"));
                (lit "moves", PyList [PyStr (lit "b4")])]] = true
  /\ main (Sample.on_file Sample.moves_as_array)
     = escapes (PyExc "TypeError" (lit "unhashable type: 'list'"))
  /\ outcome (main (Sample.on_file Sample.moves_as_array)) <> ret 0%Z.
Proof. repeat split; try reflexivity. vm_compute. discriminate. Qed.

(** C3 (amended). In an array of objects that all have the three keys and
    whose moves can all be hashed, two elements with the same moves
    string make [main] end on the duplicate error and not on the field
    error: the line gives the number of keys listed and the list, which
    holds that string, holds no key twice, and holds exactly the keys
    counted more than once; when that string is the only duplicated key
    the list is that string alone and the number is 1. *)
Theorem duplicate_moves_reported rt content data i j entry_i entry_j s :
  read_text rt = inr content ->
  json_loads rt content = inr (PyList data) ->
  forallb has_required_keys data = true ->
  forallb moves_hashable data = true ->
  i <> j ->
  data !! i = Some entry_i ->
  data !! j = Some entry_j ->
  moves_of entry_i = Some (PyStr s) ->
  moves_of entry_j = Some (PyStr s) ->
  exists dups,
    main rt = {| stdout := [];
                 stderr := [lit "Duplicate move strings found ("
                            ++ str_of_nat (length dups) ++ lit "): "
                            ++ repr_list (map (repr rt) dups)];
                 outcome := ret 1%Z |}
    /\ missing data = []
    /\ HStr s ∈ dups
    /\ distinct_keys dups
    /\ (forall d, d ∈ dups ->
                  d ∈ moves_keys data /\ 2 <= occurrences d (moves_keys data))
    /\ (forall k, k ∈ moves_keys data -> 2 <= occurrences k (moves_keys data) ->
                  exists d, d ∈ dups /\ same_key d k = true)
    /\ ((forall k, k ∈ moves_keys data -> 2 <= occurrences k (moves_keys data) ->
                   k = HStr s) ->
        dups = [HStr s]).
Proof.
  intros Hr Hp Hk Hh Hij Hi Hj Hmi Hmj.
  set (keys := moves_keys data).
  destruct (duplicates_counts _ _ (tally_counts keys)) as (Hdist & Hsound & Hcomplete).
  exists (duplicates (tally [] keys)).
  assert (2 <= occurrences (HStr s) keys /\ HStr s ∈ keys) as [Hocc Hin].
  { destruct (moves_keys_lookup data i entry_i Hk Hh Hi) as (ki & Hki & Hli).
    destruct (moves_keys_lookup data j entry_j Hk Hh Hj) as (kj & Hkj & Hlj).
    rewrite (moves_key_str entry_i s Hmi) in Hki. injection Hki as <-.
    rewrite (moves_key_str entry_j s Hmj) in Hkj. injection Hkj as <-.
    split; [|eapply list_elem_of_lookup_2, Hli].
    eapply (occurrences_two keys i j); eauto using same_key_refl. }
  assert (HStr s ∈ duplicates (tally [] keys)) as Hs.
  { destruct (Hcomplete _ Hin Hocc) as (d & Hd & Hsame).
    apply same_key_true in Hsame. cbn in Hsame. apply class_str in Hsame. now subst d. }
  split.
  { rewrite (main_loaded rt content _ Hr Hp).
    rewrite checks_passed by now apply missing_nil.
    rewrite (Counter_tally data Hk Hh). fold keys.
    destruct (duplicates (tally [] keys)); [now apply not_elem_of_nil in Hs | reflexivity]. }
  split; [now apply missing_nil|].
  split; [exact Hs|]. split; [exact Hdist|]. split; [exact Hsound|].
  split; [exact Hcomplete|].
  intros Honly. apply single_key.
  - eapply NoDup_fmap_1, Hdist.
  - exact Hs.
  - intros d Hd. destruct (Hsound d Hd) as [Hdk Hdo]. now apply Honly.
Qed.

Lemma duplicate_moves_reported_polish_bird :
  main (Sample.on_file Sample.polish_bird)
  = fails_with (lit "Duplicate move strings found (1): ['1.b4']").
Proof.
  destruct (duplicate_moves_reported (Sample.on_file Sample.polish_bird) Sample.polish_bird
              [PyDict [(lit "eco", PyStr (lit "A00")); (lit "name", PyStr (lit "Polish"));
                       (lit "moves", PyStr (lit "1.b4"))];
               PyDict [(lit "eco", PyStr (lit "A01")); (lit "name", PyStr (lit "Bird"));
                       (lit "moves", PyStr (lit "1.b4"))]]
              0 1 _ _ (lit "1.b4")
              eq_refl eq_refl eq_refl eq_refl (O_S 0) eq_refl eq_refl eq_refl eq_refl)
    as (dups & Hrun & _ & _ & _ & _ & _ & Hone).
  rewrite Hrun, Hone; [reflexivity|].
  intros k Hk Hocc. vm_compute in Hk.
  apply elem_of_cons in Hk as [->|Hk]; [reflexivity|].
  apply elem_of_cons in Hk as [->|Hk]; [reflexivity|].
  now apply not_elem_of_nil in Hk.
Defined.

(** C3 as it was stated fails: two records with the same moves string
    beside a record whose moves are an array do not end on the duplicate
    error; the counter raises [TypeError]. *)
Lemma duplicate_moves_beside_array :
  json_loads (Sample.on_file Sample.duplicate_beside_array) Sample.duplicate_beside_array
  = inr (PyList [PyDict [(lit "eco", PyStr (lit "A00")); (lit "name", PyStr (lit "Polish"));
                         (lit "moves", PyStr (lit "1.b4"))];
                 PyDict [(lit "eco", PyStr (lit "A00")); (lit "name", PyStr (lit "Sokolsky"));
                         (lit "moves", PyStr (lit "1.b4"))];
                 PyDict [(lit "eco", PyStr (lit "A02")); (lit "name", PyStr (lit "Bird"));
                         (lit "moves", PyList [PyStr (lit "f4")])]])
  /\ main (Sample.on_file Sample.duplicate_beside_array)
     = escapes (PyExc "TypeError" (lit "unhashable type: 'list'"))
  /\ forall dups, main (Sample.on_file Sample.duplicate_beside_array)
                  <> fails_with (duplicates_message
                                   (Sample.on_file Sample.duplicate_beside_array) dups).
Proof. repeat split; try reflexivity. intros dups. vm_compute. discriminate. Qed.

(** ** Termination of a run *)

(** Moves that cannot be hashed, in a dataset that passes the field
    check, leave [main] as a [TypeError]. *)
Lemma unhashable_moves_escape rt content data :
  read_text rt = inr content ->
  json_loads rt content = inr (PyList data) ->
  forallb has_required_keys data = true ->
  forallb moves_hashable data = false ->
  exists exc, main rt = escapes exc /\ exc_class exc = "TypeError"%string.
Proof.
  intros Hr Hp Hk Hh. rewrite (main_loaded rt content _ Hr Hp).
  rewrite checks_passed by now apply missing_nil.
  destruct (count_moves_raises [] data Hk Hh) as (exc & Hc & Hcls).
  unfold Counter. rewrite Hc. eauto.
Qed.


(** ** Determinism *)

Section KeyOrder.

Implicit Types (d : dict) (a b : pyval) (data : list pyval) (key : pystr).

Lemma dict_contains_perm d d' key :
  d ≡ₚ d' -> dict_contains d key = dict_contains d' key.
Proof.
  intros Hp. unfold dict_contains. apply eq_true_iff_eq.
  rewrite !existsb_exists. split; intros (kv & Hin & Hkv); exists kv; split; try exact Hkv.
  - apply list_elem_of_In. rewrite <- Hp. now apply list_elem_of_In.
  - apply list_elem_of_In. rewrite Hp. now apply list_elem_of_In.
Qed.

Lemma dict_get_Some d key v :
  NoDup d.*1 -> dict_get d key = Some v <-> (key, v) ∈ d.
Proof.
  induction d as [|[k w] d IH]; intros Hnd; cbn [dict_get].
  - split; [discriminate | intros H; now apply not_elem_of_nil in H].
  - rewrite fmap_cons in Hnd. apply NoDup_cons in Hnd as [Hk Hnd]. cbn [fst] in Hk.
    rewrite elem_of_cons. destruct (decide (k = key)) as [->|Hne].
    + split.
      * intros [= ->]. now left.
      * intros [[= ->]|Hin]; [reflexivity|].
        exfalso. apply Hk. apply (list_elem_of_fmap_2 fst) in Hin. exact Hin.
    + rewrite (IH Hnd). split; [now right|]. intros [[= -> ->]|Hin]; [congruence | exact Hin].
Qed.

Lemma dict_get_perm d d' key :
  d ≡ₚ d' -> NoDup d.*1 -> dict_get d key = dict_get d' key.
Proof.
  intros Hp Hnd.
  assert (NoDup d'.*1) as Hnd' by now rewrite <- Hp.
  destruct (dict_get d key) as [v|] eqn:E.
  - apply (dict_get_Some d key v Hnd) in E. rewrite Hp in E.
    symmetry. now apply dict_get_Some.
  - destruct (dict_get d' key) as [v'|] eqn:E'; [|reflexivity].
    apply (dict_get_Some d' key v' Hnd') in E'. rewrite <- Hp in E'.
    apply (dict_get_Some d key v' Hnd) in E'. congruence.
Qed.

Lemma same_record_keys a b :
  same_record a b -> has_required_keys a = has_required_keys b.
Proof.
  intros [->|(d & d' & -> & -> & Hp & _)]; [reflexivity|].
  cbn [has_required_keys]. unfold required_keys. cbn [forallb].
  now rewrite !(dict_contains_perm d d' _ Hp).
Qed.

Lemma same_record_getitem a b key :
  same_record a b -> getitem a key = getitem b key.
Proof.
  intros [->|(d & d' & -> & -> & Hp & Hnd)]; [reflexivity|].
  cbn [getitem]. now rewrite (dict_get_perm d d' key Hp Hnd).
Qed.

Lemma same_record_scan data data' :
  Forall2 same_record data data' ->
  forall start acc,
    fold_left (fun acc ie => scan_entry acc ie.1 ie.2) (enumerate_from start data) acc
    = fold_left (fun acc ie => scan_entry acc ie.1 ie.2) (enumerate_from start data') acc.
Proof.
  induction 1 as [|a b data data' Hab _ IH]; intros start acc; [reflexivity|].
  cbn [enumerate_from fold_left fst snd].
  rewrite !scan_entry_spec, (same_record_keys a b Hab). apply IH.
Qed.

Lemma same_record_missing data data' :
  Forall2 same_record data data' -> missing data = missing data'.
Proof. intros H. apply (same_record_scan data data' H). Qed.

Lemma same_record_count data data' :
  Forall2 same_record data data' ->
  forall mc, count_moves mc data = count_moves mc data'.
Proof.
  induction 1 as [|a b data data' Hab _ IH]; intros mc; [reflexivity|].
  cbn [count_moves]. rewrite (same_record_getitem a b _ Hab).
  destruct (getitem b (lit "moves")) as [exc|moves]; [reflexivity|]. cbn [bind].
  destruct (as_key moves) as [exc|k]; [reflexivity|]. cbn [bind]. apply IH.
Qed.

End KeyOrder.

(** [main] asks of the run time only [repr] of the keys it lists. *)
Lemma checks_runtime rt rt' content data :
  (forall s, repr_str rt s = repr_str rt' s) ->
  (forall f, repr_float rt f = repr_float rt' f) ->
  checks rt content data = checks rt' content data.
Proof.
  intros Hs Hf. destruct data as [| | | | |data|]; try reflexivity.
  cbn [checks]. destruct (missing data); [|reflexivity].
  destruct (Counter data) as [exc|mc]; [reflexivity|].
  destruct (duplicates mc) as [|d dups]; [reflexivity|].
  f_equal. unfold duplicates_message. do 4 f_equal.
  apply map_ext. intros [| | | |]; cbn; auto.
Qed.

Lemma checks_key_order rt content data data' :
  Forall2 same_record data data' ->
  checks rt content (PyList data) = checks rt content (PyList data').
Proof.
  intros H. cbn [checks].
  rewrite (same_record_missing data data' H). unfold Counter.
  rewrite (same_record_count data data' H), (Forall2_length _ _ _ H). reflexivity.
Qed.

(** C9. Two runs on the same path and the same text read, whose decoders
    answer alike on that text and whose [repr] agree, are the same run:
    same lines on the same channels, same code returned or exception
    raised. The decoders may order the keys of a record differently:
    nothing [main] does depends on that order. The order of the array is
    kept: the positions the field error lists are those of the array as
    decoded, in increasing order. *)
Theorem runs_agree rt rt' :
  data_path rt = data_path rt' ->
  read_text rt = read_text rt' ->
  (forall content, read_text rt = inr content ->
                   decoders_agree (json_loads rt content) (json_loads rt' content)) ->
  (forall s, repr_str rt s = repr_str rt' s) ->
  (forall f, repr_float rt f = repr_float rt' f) ->
  main rt = main rt'
  /\ (forall content data,
        read_text rt = inr content -> json_loads rt content = inr (PyList data) ->
        missing data = failing_indices data).
Proof.
  intros Hpath Hread Hdec Hs Hf. split; [|intros; apply missing_failing_indices].
  unfold main. rewrite <- Hread.
  destruct (read_text rt) as [exc|content] eqn:Hr.
  { cbn. unfold load_message. now rewrite Hpath. }
  cbn [bind]. specialize (Hdec content eq_refl). unfold decoders_agree in Hdec.
  destruct (json_loads rt content) as [exc|v], (json_loads rt' content) as [exc'|v'];
    try contradiction; cbn [bind ret].
  - subst exc'. unfold load_message. now rewrite Hpath.
  - destruct Hdec as [->|(data & data' & -> & -> & Hrec)].
    + now apply checks_runtime.
    + rewrite (checks_key_order rt content data data' Hrec). now apply checks_runtime.
Qed.

Lemma reversed_keys_same_record v :
  Sample.unique_keys v = true -> same_record v (Sample.reversed_keys v).
Proof.
  destruct v; try (now left). cbn. intros Hnd. apply bool_decide_eq_true in Hnd.
  right. exists items, (rev items). repeat split; [|exact Hnd].
  apply Permutation_rev.
Qed.

Lemma reversed_keys_same_records data :
  forallb Sample.unique_keys data = true ->
  Forall2 same_record data (map Sample.reversed_keys data).
Proof.
  induction data as [|v data IH]; cbn [forallb map]; intros Hu; [constructor|].
  apply andb_prop in Hu as [Hv Hu].
  constructor; [now apply reversed_keys_same_record | now apply IH].
Qed.

Lemma runs_agree_reversed_keys :
  json_loads (Sample.on_file Sample.polish_bird) Sample.polish_bird
  <> json_loads (Sample.on_file_reversed Sample.polish_bird) Sample.polish_bird
  /\ main (Sample.on_file Sample.polish_bird)
     = main (Sample.on_file_reversed Sample.polish_bird).
Proof.
  split; [vm_compute; discriminate|].
  apply (runs_agree (Sample.on_file Sample.polish_bird)
           (Sample.on_file_reversed Sample.polish_bird)); try reflexivity.
  intros content [= <-].
  cbn [json_loads Sample.on_file Sample.on_file_reversed]. unfold Sample.loads_reversed.
  set (r := Sample.loads Sample.polish_bird). vm_compute in r. subst r.
  right. do 2 eexists. split; [reflexivity|]. split; [reflexivity|].
  apply reversed_keys_same_records. reflexivity.
Defined.

(** * Further properties of [main] *)

(** ** The ways a run ends *)

(** A run ends in one of three ways: one line on the error channel and
    1 returned; an exception and nothing printed; the two lines of the
    report and 0 returned. *)
Lemma main_cases rt :
  (exists line, main rt = fails_with line)
  \/ (exists exc, main rt = escapes exc)
  \/ (exists count size,
        main rt = {| stdout := [entries_line count; size_line size];
                     stderr := [];
                     outcome := ret 0%Z |}).
Proof.
  unfold main.
  destruct (read_text rt) as [exc|content]; cbn [bind]; [eauto|].
  destruct (json_loads rt content) as [exc|data]; cbn [bind ret]; [eauto|].
  destruct data as [| | | | |data|]; cbn [checks]; eauto.
  destruct (missing data); [|eauto].
  destruct (Counter data) as [exc|mc]; [eauto|].
  destruct (duplicates mc); [|eauto].
  destruct (encode_utf8 content); eauto 6.
Qed.

(** X1. Whatever the file holds and whatever the library answers, the
    script exits with status 0 or 1; the status is 0 exactly when the two
    lines of the report were printed; a run never prints on both
    channels, never prints more than one line on the error channel, and
    prints nothing at all when an exception leaves [main]. *)
Theorem script_exit_status rt :
  (exit_status (script rt) = 0%Z \/ exit_status (script rt) = 1%Z)
  /\ (exit_status (script rt) = 0%Z
      <-> exists count size, stdout (main rt) = [entries_line count; size_line size])
  /\ (stdout (main rt) = [] \/ stderr (main rt) = [])
  /\ length (stderr (main rt)) <= 1
  /\ (uncaught (script rt) <> None -> stdout (main rt) = [] /\ stderr (main rt) = []).
Proof.
  unfold script.
  destruct (main_cases rt) as [[line ->]|[[exc ->]|(count & size & ->)]]; cbn.
  - split; [now right|]. split; [split; [discriminate | intros (c & z & [=])]|].
    split; [now left|]. split; [lia|]. intros Hu. now contradiction Hu.
  - split; [now right|]. split; [split; [discriminate | intros (c & z & [=])]|].
    split; [now left|]. split; [lia|]. now intros _.
  - split; [now left|]. split; [split; eauto|].
    split; [now right|]. split; [lia|]. intros Hu. now contradiction Hu.
Qed.

(** ** What a dataset must be for the report to be printed *)

Section Acceptance.

Implicit Types (mc : counter) (k x : hashable) (keys l : list hashable).

Lemma occurrences_cons k x l :
  occurrences k (x :: l) = (if same_key k x then 1 else 0) + occurrences k l.
Proof.
  unfold occurrences. rewrite filter_cons.
  destruct (same_key k x); [rewrite decide_True | rewrite decide_False];
    cbn; congruence.
Qed.

Lemma occurrences_zero_inv k l :
  occurrences k l = 0 -> key_class_of k ∉ key_class_of <$> l.
Proof.
  intros Hz Hin. apply list_elem_of_fmap in Hin as (x & Hc & Hin).
  apply occurrences_elem in Hin.
  rewrite (occurrences_class x k) in Hin by congruence. lia.
Qed.

Lemma distinct_of_occurrences keys :
  (forall k, k ∈ keys -> occurrences k keys <= 1) -> distinct_keys keys.
Proof.
  unfold distinct_keys. induction keys as [|x l IH]; intros Hocc; [apply NoDup_nil_2|].
  rewrite fmap_cons. apply NoDup_cons. split.
  - apply occurrences_zero_inv.
    specialize (Hocc x (list_elem_of_here _ _)).
    rewrite occurrences_cons, same_key_refl in Hocc. lia.
  - apply IH. intros k Hk.
    specialize (Hocc k (list_elem_of_further _ _ _ Hk)).
    rewrite occurrences_cons in Hocc. lia.
Qed.

(** A counter that lists no duplicate has counted pairwise distinct keys. *)
Lemma duplicates_nil_distinct mc keys :
  counts mc keys -> duplicates mc = [] -> distinct_keys keys.
Proof.
  intros Hc Hnil. apply distinct_of_occurrences. intros k Hk.
  destruct (duplicates_counts mc keys Hc) as (_ & _ & Hcomplete).
  destruct (decide (2 <= occurrences k keys)) as [Htwo|]; [|lia].
  destruct (Hcomplete k Hk Htwo) as (d & Hd & _).
  rewrite Hnil in Hd. now apply not_elem_of_nil in Hd.
Qed.

End Acceptance.

(** X2. [main] returns 0 exactly for a valid dataset: the file is read,
    its text decodes to an array, every element is an object with the
    keys [eco], [name] and [moves], every moves value can be hashed, no
    two moves are the same dictionary key, and the text can be encoded.
    Nothing else is accepted. *)
Theorem accepted_iff_valid rt :
  outcome (main rt) = ret 0%Z
  <-> exists content data bytes,
        read_text rt = inr content
        /\ json_loads rt content = inr (PyList data)
        /\ forallb has_required_keys data = true
        /\ forallb moves_hashable data = true
        /\ distinct_keys (moves_keys data)
        /\ encode_utf8 content = inr bytes.
Proof.
  split.
  - intros Hout.
    destruct (read_text rt) as [exc|content] eqn:Hr.
    { rewrite (main_read_fails rt exc Hr) in Hout. discriminate. }
    destruct (json_loads rt content) as [exc|data] eqn:Hp.
    { rewrite (main_decode_fails rt content exc Hr Hp) in Hout. discriminate. }
    rewrite (main_loaded rt content data Hr Hp) in Hout.
    destruct data as [| | | | |data|]; try discriminate.
    destruct (forallb has_required_keys data) eqn:Hk.
    2:{ rewrite checks_missing in Hout; [discriminate|].
        intros Hm. apply missing_nil in Hm. congruence. }
    rewrite checks_passed in Hout by now apply missing_nil.
    destruct (forallb moves_hashable data) eqn:Hh.
    2:{ destruct (count_moves_raises [] data Hk Hh) as (exc & Hc & _).
        unfold Counter in Hout. rewrite Hc in Hout. discriminate. }
    rewrite (Counter_tally data Hk Hh) in Hout.
    destruct (duplicates (tally [] (moves_keys data))) as [|d dups] eqn:Hd;
      [|discriminate].
    destruct (encode_utf8 content) as [exc|bytes] eqn:He; [discriminate|].
    exists content, data, bytes. repeat split; try assumption.
    exact (duplicates_nil_distinct _ _ (tally_counts (moves_keys data)) Hd).
  - intros (content & data & bytes & Hr & Hp & Hk & Hh & Hd & He).
    rewrite (main_loaded rt content _ Hr Hp).
    rewrite checks_passed by now apply missing_nil.
    rewrite (Counter_tally data Hk Hh).
    destruct (duplicates_counts _ _ (tally_counts (moves_keys data))) as (_ & Hdup & _).
    destruct (duplicates (tally [] (moves_keys data))) as [|d dups].
    + rewrite He. reflexivity.
    + destruct (Hdup d) as [_ Hocc]; [left|].
      pose proof (occurrences_distinct d _ Hd). lia.
Qed.

Lemma accepted_iff_valid_polish_bird :
  outcome (main (Sample.on_file Sample.polish_bird)) <> ret 0%Z
  /\ ~ distinct_keys [HStr (lit "1.b4"); HStr (lit "1.b4")].
Proof.
  split.
  - intros Hout.
    apply (accepted_iff_valid (Sample.on_file Sample.polish_bird)) in Hout
      as (content & data & bytes & Hr & Hp & _ & _ & Hd & _).
    injection Hr as <-. vm_compute in Hp. injection Hp as <-.
    revert Hd. apply (bool_decide_eq_false_1 _). vm_compute. reflexivity.
  - apply (bool_decide_eq_false_1 _). vm_compute. reflexivity.
Defined.

(** ** The list of the field error *)

Lemma filter_seq_sorted (P : nat -> Prop) `{!forall i, Decision (P i)} start len :
  StronglySorted lt (filter P (seq start len)).
Proof.
  revert start. induction len as [|len IH]; intros start; cbn [seq]; [constructor|].
  rewrite filter_cons. destruct (decide (P start)); [|apply IH].
  constructor; [apply IH|].
  apply Forall_forall. intros i Hi.
  apply list_elem_of_filter in Hi as [_ Hi]. apply elem_of_seq in Hi. lia.
Qed.

(** X3. The positions the field check collects are strictly increasing,
    so none is listed twice, and each is a position of the array. *)
Theorem missing_sorted data :
  StronglySorted lt (missing data)
  /\ NoDup (missing data)
  /\ Forall (fun i => i < length data) (missing data)
  /\ length (missing data) <= length data.
Proof.
  rewrite missing_failing_indices. unfold failing_indices.
  pose proof (filter_seq_sorted (fun i => fails_at data i = true) 0 (length data)) as Hs.
  split; [exact Hs|]. split; [|split].
  - apply NoDup_filter, NoDup_seq.
  - apply Forall_forall. intros i Hi.
    apply list_elem_of_filter in Hi as [_ Hi]. apply elem_of_seq in Hi. lia.
  - etransitivity; [apply length_filter|]. now rewrite length_seq.
Qed.

(** ** What [main] looks at in a record *)

Section View.

Implicit Types (a b : pyval) (data : list pyval).

Lemma same_view_scan data data' :
  Forall2 same_view data data' ->
  forall start acc,
    fold_left (fun acc ie => scan_entry acc ie.1 ie.2) (enumerate_from start data) acc
    = fold_left (fun acc ie => scan_entry acc ie.1 ie.2) (enumerate_from start data') acc.
Proof.
  induction 1 as [|a b data data' [Hab _] _ IH]; intros start acc; [reflexivity|].
  cbn [enumerate_from fold_left fst snd].
  rewrite !scan_entry_spec, Hab. apply IH.
Qed.

Lemma same_view_count data data' :
  Forall2 same_view data data' ->
  forallb has_required_keys data = true ->
  forall mc, count_moves mc data = count_moves mc data'.
Proof.
  induction 1 as [|a b data data' [Hab Hmoves] _ IH]; intros Hk mc; [reflexivity|].
  first_record Hk as Hks.
  destruct (has_required_keys_moves a Hk) as [v Hv].
  cbn [count_moves]. rewrite (getitem_moves a v Hk Hv).
  rewrite (getitem_moves b v) by (rewrite <- ?Hab, <- ?Hmoves; assumption).
  cbn [bind]. destruct (as_key v) as [exc|k]; [reflexivity|]. cbn [bind].
  now apply IH.
Qed.

End View.

(** X4. [main] looks at an element of the array only to see whether it is
    an object that has the three keys and, if it is, to take its moves:
    two decoded arrays that agree on this, element by element, give the
    same run. The values under [eco] and [name], their types, and any
    other key of a record are never inspected. *)
Theorem unchecked_parts_ignored rt data data' :
  Forall2 same_view data data' ->
  main (with_decoded rt (PyList data)) = main (with_decoded rt (PyList data')).
Proof.
  intros Hview.
  destruct (read_text rt) as [exc|content] eqn:Hr.
  { now rewrite !(main_read_fails (with_decoded rt _) exc Hr). }
  rewrite (main_loaded (with_decoded rt (PyList data)) content (PyList data) Hr eq_refl).
  rewrite (main_loaded (with_decoded rt (PyList data')) content (PyList data') Hr eq_refl).
  assert (missing data = missing data') as Hm by apply (same_view_scan data data' Hview).
  cbn [checks]. rewrite <- Hm, <- (Forall2_length _ _ _ Hview).
  destruct (missing data) eqn:Hmiss; [|reflexivity].
  apply missing_nil in Hmiss. unfold Counter.
  rewrite <- (same_view_count data data' Hview Hmiss). reflexivity.
Qed.

Lemma unchecked_parts_ignored_polish :
  main (with_decoded (Sample.on_file Sample.polish)
          (PyList [PyDict [(lit "eco", PyStr (lit "A00")); (lit "name", PyStr (lit "Polish"));
                           (lit "moves", PyStr (lit "1.b4"))]]))
  = main (with_decoded (Sample.on_file Sample.polish)
            (PyList [PyDict [(lit "moves", PyStr (lit "1.b4")); (lit "eco", PyList []);
                             (lit "pgn", PyInt 4); (lit "name", PyNone)]])).
Proof.
  apply (unchecked_parts_ignored (Sample.on_file Sample.polish)).
  repeat constructor.
Defined.

(** ** The counter, key by key *)

Section Firsts.

Implicit Types (mc : counter) (k x : hashable) (keys l : list hashable).

Lemma firsts_snoc l k :
  firsts (l ++ [k])
  = firsts l ++ (if decide (key_class_of k ∈ key_class_of <$> l) then [] else [k]).
Proof.
  induction l as [|x l IH]; cbn [app firsts].
  - rewrite decide_False by apply not_elem_of_nil. reflexivity.
  - rewrite IH, list.filter_app, fmap_cons. cbn [app]. f_equal. f_equal.
    destruct (decide (key_class_of k ∈ key_class_of <$> l)) as [Hin|Hin],
      (decide (key_class_of k ∈ key_class_of x :: (key_class_of <$> l))) as [Hin'|Hin'].
    + reflexivity.
    + exfalso. apply Hin'. now right.
    + apply elem_of_cons in Hin' as [Hc|Hin']; [|contradiction].
      rewrite filter_cons_False; [reflexivity|].
      rewrite not_false_iff_true. now apply same_key_true.
    + apply not_elem_of_cons in Hin' as [Hc _].
      rewrite filter_cons_True; [reflexivity|]. apply same_key_false. congruence.
Qed.

(** Counting one more key in a counter that has each key once. *)
Lemma counter_add_map (count : hashable -> nat) l k :
  NoDup (key_class_of <$> l) ->
  counter_add (map (fun x => (x, count x)) l) k
  = map (fun x => (x, count x + (if same_key x k then 1 else 0))) l
    ++ (if decide (key_class_of k ∈ key_class_of <$> l) then [] else [(k, 1)]).
Proof.
  induction l as [|x l IH]; intros Hnd; cbn [map counter_add app].
  - rewrite decide_False by apply not_elem_of_nil. reflexivity.
  - rewrite fmap_cons in Hnd |- *. apply NoDup_cons in Hnd as [Hx Hnd].
    destruct (same_key x k) eqn:Hs.
    + apply same_key_true in Hs. rewrite decide_True by (rewrite Hs; left).
      rewrite app_nil_r, Nat.add_1_r. f_equal.
      apply map_ext_in. intros y Hy. f_equal.
      assert (same_key y k = false) as ->; [|lia].
      apply same_key_false. intros Hc. apply Hx. rewrite Hs, <- Hc.
      apply list_elem_of_fmap_2. now apply list_elem_of_In.
    + rewrite IH by exact Hnd. rewrite Nat.add_0_r. cbn [app]. f_equal. f_equal.
      apply same_key_false in Hs.
      destruct (decide (key_class_of k ∈ key_class_of <$> l)) as [Hin|Hin].
      * rewrite decide_True by now right. reflexivity.
      * rewrite decide_False; [reflexivity|].
        apply not_elem_of_cons. split; congruence.
Qed.

Lemma classes_map (count : hashable -> nat) l :
  classes (map (fun x => (x, count x)) l) = key_class_of <$> l.
Proof.
  unfold classes. induction l as [|x l IH]; [reflexivity|].
  cbn [map]. rewrite !fmap_cons, IH. reflexivity.
Qed.

(** The counter built from [keys] holds, in the order the keys first
    appear, each key as first written with the number of keys equal to
    it. *)
Lemma tally_firsts keys :
  tally [] keys = map (fun k => (k, occurrences k keys)) (firsts keys).
Proof.
  induction keys as [|k l IH] using rev_ind; [reflexivity|].
  pose proof (tally_counts l) as (Hnd & Hcount & Hall).
  rewrite IH, classes_map in Hnd. rewrite tally_app. cbn [tally fold_left].
  fold (tally [] l). rewrite IH, (counter_add_map _ _ _ Hnd), firsts_snoc, map_app.
  assert (key_class_of k ∈ key_class_of <$> firsts l
          <-> key_class_of k ∈ key_class_of <$> l) as Hiff.
  { split.
    - intros Hin. apply list_elem_of_fmap in Hin as (x & Hc & Hin).
      assert ((x, occurrences x l) ∈ tally [] l) as Hmem.
      { rewrite IH. apply list_elem_of_In, in_map_iff. exists x.
        split; [reflexivity | now apply list_elem_of_In]. }
      apply Hcount in Hmem as [Hx _]. rewrite Hc. now apply list_elem_of_fmap_2.
    - intros Hin. apply list_elem_of_fmap in Hin as (x & Hc & Hin).
      apply Hall in Hin. rewrite IH, classes_map in Hin. congruence. }
  f_equal.
  - apply map_ext. intros x. now rewrite occurrences_snoc.
  - destruct (decide (key_class_of k ∈ key_class_of <$> firsts l)) as [Hin|Hin].
    + rewrite decide_True by now apply Hiff. reflexivity.
    + rewrite decide_False by (intros H; now apply Hin, Hiff).
      cbn [map]. rewrite occurrences_snoc, same_key_refl, occurrences_zero; [reflexivity|].
      intros H. now apply Hin, Hiff.
Qed.

Lemma duplicates_map (count : hashable -> nat) l :
  duplicates (map (fun x => (x, count x)) l) = filter (fun x => 2 <= count x) l.
Proof.
  unfold duplicates. induction l as [|x l IH]; [reflexivity|].
  cbn [map]. rewrite !filter_cons. cbn [snd].
  destruct (decide (1 < count x)), (decide (2 <= count x)); try lia;
    cbn [map fst]; now rewrite IH.
Qed.

End Firsts.

(** X5. On an array of objects that all have the three keys and whose
    moves can all be hashed, the counter holds one entry for each
    distinct moves value, in the order the values first appear in the
    array and under the value as first written, with the number of
    records that have it; the duplicate error lists, in that same order,
    those met twice or more. *)
Theorem duplicates_in_first_order rt content data :
  read_text rt = inr content ->
  json_loads rt content = inr (PyList data) ->
  forallb has_required_keys data = true ->
  forallb moves_hashable data = true ->
  Counter data
  = inr (map (fun k => (k, occurrences k (moves_keys data))) (firsts (moves_keys data)))
  /\ (filter (fun k => 2 <= occurrences k (moves_keys data)) (firsts (moves_keys data)) <> [] ->
      main rt
      = fails_with
          (duplicates_message rt
             (filter (fun k => 2 <= occurrences k (moves_keys data))
                     (firsts (moves_keys data))))).
Proof.
  intros Hr Hp Hk Hh.
  rewrite (Counter_tally data Hk Hh), tally_firsts. split; [reflexivity|].
  intros Hne. rewrite (main_loaded rt content _ Hr Hp).
  rewrite checks_passed by now apply missing_nil.
  rewrite (Counter_tally data Hk Hh), tally_firsts, duplicates_map.
  destruct (filter _ _); [contradiction | reflexivity].
Qed.

Lemma duplicates_in_first_order_mixed :
  main (Sample.on_file
          (Sample.text "[{'eco':'A02','name':'Bird','moves':'1.f4'},
 {'eco':'A00','name':'Polish','moves':'1.b4'},
 {'eco':'A03','name':'Bird again','moves':'1.f4'},
 {'eco':'A04','name':'One','moves':1},
 {'eco':'A00','name':'Sokolsky','moves':'1.b4'},
 {'eco':'A05','name':'True','moves':true},
 {'eco':'A06','name':'Reti','moves':'1.Nf3'}]"))
  = fails_with (lit "Duplicate move strings found (3): ['1.f4', '1.b4', 1]").
Proof.
  destruct (duplicates_in_first_order
              (Sample.on_file
                 (Sample.text "[{'eco':'A02','name':'Bird','moves':'1.f4'},
 {'eco':'A00','name':'Polish','moves':'1.b4'},
 {'eco':'A03','name':'Bird again','moves':'1.f4'},
 {'eco':'A04','name':'One','moves':1},
 {'eco':'A00','name':'Sokolsky','moves':'1.b4'},
 {'eco':'A05','name':'True','moves':true},
 {'eco':'A06','name':'Reti','moves':'1.Nf3'}]"))
              _
              [PyDict [(lit "eco", PyStr (lit "A02")); (lit "name", PyStr (lit "Bird"));
                       (lit "moves", PyStr (lit "1.f4"))];
               PyDict [(lit "eco", PyStr (lit "A00")); (lit "name", PyStr (lit "Polish"));
                       (lit "moves", PyStr (lit "1.b4"))];
               PyDict [(lit "eco", PyStr (lit "A03")); (lit "name", PyStr (lit "Bird again"));
                       (lit "moves", PyStr (lit "1.f4"))];
               PyDict [(lit "eco", PyStr (lit "A04")); (lit "name", PyStr (lit "One"));
                       (lit "moves", PyInt 1)];
               PyDict [(lit "eco", PyStr (lit "A00")); (lit "name", PyStr (lit "Sokolsky"));
                       (lit "moves", PyStr (lit "1.b4"))];
               PyDict [(lit "eco", PyStr (lit "A05")); (lit "name", PyStr (lit "True"));
                       (lit "moves", PyBool true)];
               PyDict [(lit "eco", PyStr (lit "A06")); (lit "name", PyStr (lit "Reti"));
                       (lit "moves", PyStr (lit "1.Nf3"))]]
              eq_refl eq_refl eq_refl eq_refl) as [_ Hrun].
  rewrite Hrun; [reflexivity|]. vm_compute. discriminate.
Defined.

(** ** Moves that cannot be hashed *)

Lemma count_moves_first_unhashable data :
  forallb has_required_keys data = true ->
  forallb moves_hashable data = false ->
  exists before entry after v,
    data = before ++ entry :: after
    /\ forallb moves_hashable before = true
    /\ moves_of entry = Some v
    /\ is_array v || is_object v = true
    /\ forall mc,
         count_moves mc data
         = inl (PyExc "TypeError"
                  (lit "unhashable type: '" ++ lit (type_name v) ++ lit "'")).
Proof.
  induction data as [|entry data IH]; intros Hk Hh; [discriminate|].
  first_record Hk as Hks. cbn [forallb] in Hh.
  destruct (moves_hashable entry) eqn:He.
  - destruct (IH Hks Hh) as (before & e & after & v & -> & Hb & Hv & Hty & Hc).
    exists (entry :: before), e, after, v. repeat split; try assumption.
    + cbn [forallb]. now rewrite He, Hb.
    + intros mc. cbn [count_moves app].
      destruct (moves_key_hashable entry Hk He) as (w & k & Hw & Hkey & _).
      rewrite (getitem_moves entry w Hk Hw). cbn [bind]. rewrite Hkey. cbn [bind].
      apply Hc.
  - destruct (moves_key_unhashable entry Hk He) as (v & Hv & Hkey).
    exists [], entry, data, v. repeat split; try assumption.
    + unfold moves_hashable in He. rewrite Hv in He. now destruct v.
    + intros mc. cbn [count_moves].
      rewrite (getitem_moves entry v Hk Hv). cbn [bind]. now rewrite Hkey.
Qed.

(** X6. When every element of the array is an object with the three keys
    and some moves value is an array or an object, [main] prints nothing
    and a [TypeError] leaves it, naming the type of the first such value
    in array order; the script ends with status 1 on a traceback.
    Duplicates among the records, before or after, go unreported. *)
Theorem unhashable_moves_crash rt content data :
  read_text rt = inr content ->
  json_loads rt content = inr (PyList data) ->
  forallb has_required_keys data = true ->
  forallb moves_hashable data = false ->
  exists before entry after v,
    data = before ++ entry :: after
    /\ forallb moves_hashable before = true
    /\ moves_of entry = Some v
    /\ is_array v || is_object v = true
    /\ main rt = {| stdout := [];
                    stderr := [];
                    outcome := raise (PyExc "TypeError"
                                        (lit "unhashable type: '" ++ lit (type_name v)
                                         ++ lit "'")) |}
    /\ exit_status (script rt) = 1%Z
    /\ uncaught (script rt)
       = Some (PyExc "TypeError" (lit "unhashable type: '" ++ lit (type_name v) ++ lit "'")).
Proof.
  intros Hr Hp Hk Hh.
  destruct (count_moves_first_unhashable data Hk Hh)
    as (before & entry & after & v & Hdata & Hb & Hv & Hty & Hc).
  exists before, entry, after, v.
  assert (main rt = escapes (PyExc "TypeError"
                               (lit "unhashable type: '" ++ lit (type_name v) ++ lit "'")))
    as Hrun.
  { rewrite (main_loaded rt content _ Hr Hp).
    rewrite checks_passed by now apply missing_nil.
    unfold Counter. now rewrite Hc. }
  repeat split; try assumption; unfold script; now rewrite Hrun.
Qed.

Lemma unhashable_moves_crash_beside_duplicates :
  main (Sample.on_file Sample.duplicate_beside_array)
  = escapes (PyExc "TypeError" (lit "unhashable type: 'list'"))
  /\ exit_status (script (Sample.on_file Sample.duplicate_beside_array)) = 1%Z.
Proof.
  destruct (unhashable_moves_crash (Sample.on_file Sample.duplicate_beside_array)
              Sample.duplicate_beside_array
              [PyDict [(lit "eco", PyStr (lit "A00")); (lit "name", PyStr (lit "Polish"));
                       (lit "moves", PyStr (lit "1.b4"))];
               PyDict [(lit "eco", PyStr (lit "A00")); (lit "name", PyStr (lit "Sokolsky"));
                       (lit "moves", PyStr (lit "1.b4"))];
               PyDict [(lit "eco", PyStr (lit "A02")); (lit "name", PyStr (lit "Bird"));
                       (lit "moves", PyList [PyStr (lit "f4")])]]
              eq_refl eq_refl eq_refl eq_refl)
    as (before & entry & after & v & _ & _ & _ & _ & _ & Hstatus & _).
  split; [reflexivity | exact Hstatus].
Defined.

(** ** The size reported *)

Lemma utf8_encode_char_length c bytes :
  utf8_encode_char c = Some bytes ->
  1 <= length bytes <= 4 /\ ((c <? 128)%N = true -> bytes = [c]).
Proof.
  unfold utf8_encode_char.
  destruct (c <? 0x80)%N eqn:H1; [intros [= <-]; cbn; split; [lia|reflexivity]|].
  destruct (c <? 0x800)%N; [intros [= <-]; cbn; split; [lia|discriminate]|].
  destruct (c <? 0x10000)%N.
  - destruct (is_surrogate c); [discriminate|].
    intros [= <-]; cbn; split; [lia|discriminate].
  - intros [= <-]; cbn; split; [lia|discriminate].
Qed.

Lemma encode_from_length pos s bytes :
  encode_from pos s = inr bytes ->
  length s <= length bytes <= 4 * length s /\ (is_ascii s = true -> bytes = s).
Proof.
  revert pos bytes. induction s as [|c s IH]; intros pos bytes; cbn [encode_from].
  - intros [= <-]. cbn. split; [lia|reflexivity].
  - destruct (utf8_encode_char c) as [head|] eqn:Hc; [|discriminate].
    destruct (encode_from (S pos) s) as [exc|tail] eqn:Ht; [discriminate|].
    cbn [bind ret]. intros [= <-].
    destruct (utf8_encode_char_length c head Hc) as [Hlen Hascii].
    destruct (IH (S pos) tail Ht) as [Hlen' Hascii'].
    rewrite length_app. cbn [length]. split; [lia|].
    cbn [is_ascii forallb]. intros Ha. apply andb_prop in Ha as [Ha Has].
    rewrite (Hascii Ha). fold (is_ascii s) in Has. now rewrite (Hascii' Has).
Qed.

(** A run that returns 0 has printed the report on the text and the
    array. *)
Lemma main_accepts rt content data :
  read_text rt = inr content ->
  json_loads rt content = inr (PyList data) ->
  outcome (main rt) = ret 0%Z ->
  exists bytes,
    encode_utf8 content = inr bytes
    /\ main rt = {| stdout := [entries_line (length data); size_line (length bytes)];
                    stderr := [];
                    outcome := ret 0%Z |}.
Proof.
  intros Hr Hp. rewrite (main_loaded rt content _ Hr Hp). cbn [checks].
  destruct (missing data); [|discriminate].
  destruct (Counter data) as [exc|mc]; [discriminate|].
  destruct (duplicates mc); [|discriminate].
  destruct (encode_utf8 content) as [exc|bytes]; [discriminate|]. eauto.
Qed.

Lemma utf8_encode_char_width c bytes :
  utf8_encode_char c = Some bytes -> length bytes = utf8_width c.
Proof.
  unfold utf8_encode_char, utf8_width.
  destruct (c <? 0x80)%N; [now intros [= <-]|].
  destruct (c <? 0x800)%N; [now intros [= <-]|].
  destruct (c <? 0x10000)%N; [|now intros [= <-]].
  destruct (is_surrogate c); [discriminate | now intros [= <-]].
Qed.

Lemma encode_from_width pos s bytes :
  encode_from pos s = inr bytes -> length bytes = sum_list (utf8_width <$> s).
Proof.
  revert pos bytes. induction s as [|c s IH]; intros pos bytes; cbn [encode_from].
  - now intros [= <-].
  - destruct (utf8_encode_char c) as [head|] eqn:Hc; [|discriminate].
    destruct (encode_from (S pos) s) as [exc|tail] eqn:Ht; [discriminate|].
    cbn [bind ret]. intros [= <-].
    rewrite length_app, (utf8_encode_char_width c head Hc), (IH (S pos) tail Ht).
    reflexivity.
Qed.

(** X7. When [main] returns 0 the first line gives the length of the
    decoded array and the second the number of bytes of the text encoded
    in UTF-8: the sum, over the code points of the text, of one to four
    bytes each by its range. It counts bytes, not characters: it is at
    least the number of code points and at most four times that number,
    and it is that number when the text is ASCII. *)
Theorem report_size rt content data :
  read_text rt = inr content ->
  json_loads rt content = inr (PyList data) ->
  outcome (main rt) = ret 0%Z ->
  exists bytes,
    encode_utf8 content = inr bytes
    /\ main rt
       = {| stdout := [lit "ECO-lite entries: " ++ str_of_nat (length data);
                       lit "Approximate file size: " ++ str_of_nat (length bytes)
                       ++ lit " bytes"];
            stderr := [];
            outcome := ret 0%Z |}
    /\ length bytes = sum_list (utf8_width <$> content)
    /\ length content <= length bytes <= 4 * length content
    /\ (is_ascii content = true -> length bytes = length content).
Proof.
  intros Hr Hp Hout.
  destruct (main_accepts rt content data Hr Hp Hout) as (bytes & He & ->).
  destruct (encode_from_length 0 content bytes He) as [Hlen Hascii].
  exists bytes. split; [exact He|]. split; [reflexivity|].
  split; [exact (encode_from_width 0 content bytes He)|]. split; [exact Hlen|].
  intros Ha. now rewrite (Hascii Ha).
Qed.

Lemma report_size_three_openings :
  main (Sample.on_file Sample.three_openings)
  = {| stdout := [lit "ECO-lite entries: 3"; lit "Approximate file size: 138 bytes"];
       stderr := [];
       outcome := ret 0%Z |}
  /\ length Sample.three_openings = 137
  /\ sum_list (utf8_width <$> Sample.three_openings) = 138.
Proof.
  destruct (report_size (Sample.on_file Sample.three_openings) Sample.three_openings
              [PyDict [(lit "eco", PyStr (lit "A00")); (lit "name", PyStr (lit "Polish"));
                       (lit "moves", PyStr (lit "1.b4"))];
               PyDict [(lit "eco", PyStr (lit "A02")); (lit "name", PyStr (lit "Bird"));
                       (lit "moves", PyStr (lit "1.f4"))];
               PyDict [(lit "name", PyStr [82; 233; 116; 105]%N);
                       (lit "moves", PyStr (lit "1.Nf3"));
                       (lit "eco", PyStr (lit "A04"))]]
              eq_refl eq_refl eq_refl) as (bytes & He & Hrun & Hsum & _).
  injection He as <-. split; [exact Hrun|]. split; [reflexivity|].
  rewrite <- Hsum. reflexivity.
Defined.

(** ** The totals of the counter *)

Section Totals.

Implicit Types (mc : counter) (k : hashable) (keys : list hashable).

Lemma counter_add_total mc k :
  sum_list (snd <$> counter_add mc k) = S (sum_list (snd <$> mc)).
Proof.
  induction mc as [|[k0 n0] mc IH]; cbn [counter_add]; [reflexivity|].
  destruct (same_key k0 k); rewrite !fmap_cons; cbn [snd sum_list sum_list_with].
  - reflexivity.
  - rewrite IH. lia.
Qed.

Lemma tally_total mc keys :
  sum_list (snd <$> tally mc keys) = sum_list (snd <$> mc) + length keys.
Proof.
  revert mc. induction keys as [|k keys IH]; intros mc; cbn [tally fold_left length].
  - lia.
  - fold (tally (counter_add mc k) keys). rewrite IH, counter_add_total. lia.
Qed.

Lemma duplicates_half mc : 2 * length (duplicates mc) <= sum_list (snd <$> mc).
Proof.
  unfold duplicates. induction mc as [|[k n] mc IH]; [cbn; lia|].
  rewrite filter_cons, fmap_cons. cbn [snd sum_list sum_list_with].
  destruct (decide (1 < n)); cbn [map length] in *; change (id n) with n; lia.
Qed.

Lemma length_le_total mc :
  Forall (fun kn => 1 <= kn.2) mc -> length mc <= sum_list (snd <$> mc).
Proof.
  induction 1 as [|[k n] mc Hn _ IH]; [cbn; lia|].
  rewrite fmap_cons. cbn [snd length sum_list sum_list_with] in *. change (id n) with n. lia.
Qed.

End Totals.

(** X8. On an array of objects that all have the three keys and whose
    moves can all be hashed, the counts of the counter add up to the
    number of records and none is 0; so the counter has at most as many
    entries as there are records, and at most half as many of them are
    duplicates. *)
Theorem counter_totals data :
  forallb has_required_keys data = true ->
  forallb moves_hashable data = true ->
  exists mc,
    Counter data = inr mc
    /\ sum_list (snd <$> mc) = length data
    /\ Forall (fun kn => 1 <= kn.2) mc
    /\ length mc <= length data
    /\ 2 * length (duplicates mc) <= length data.
Proof.
  intros Hk Hh. exists (tally [] (moves_keys data)).
  split; [now apply Counter_tally|].
  assert (sum_list (snd <$> tally [] (moves_keys data)) = length data) as Hsum.
  { rewrite tally_total. cbn. now rewrite length_moves_keys. }
  assert (Forall (fun kn => 1 <= kn.2) (tally [] (moves_keys data))) as Hpos.
  { apply Forall_forall. intros [k n] Hin.
    destruct (tally_counts (moves_keys data)) as (_ & Hcount & _).
    apply Hcount in Hin as [Hmem ->]. cbn. now apply occurrences_elem. }
  split; [exact Hsum|]. split; [exact Hpos|]. split.
  - rewrite <- Hsum. now apply length_le_total.
  - rewrite <- Hsum. apply duplicates_half.
Qed.

Lemma counter_totals_polish_bird :
  exists mc,
    Counter [PyDict [(lit "eco", PyStr (lit "A00")); (lit "name", PyStr (lit "Polish"));
                     (lit "moves", PyStr (lit "1.b4"))];
             PyDict [(lit "eco", PyStr (lit "A01")); (lit "name", PyStr (lit "Bird"));
                     (lit "moves", PyStr (lit "1.b4"))]] = inr mc
    /\ sum_list (snd <$> mc) = 2
    /\ 2 * length (duplicates mc) <= 2.
Proof.
  destruct (counter_totals
              [PyDict [(lit "eco", PyStr (lit "A00")); (lit "name", PyStr (lit "Polish"));
                       (lit "moves", PyStr (lit "1.b4"))];
               PyDict [(lit "eco", PyStr (lit "A01")); (lit "name", PyStr (lit "Bird"));
                       (lit "moves", PyStr (lit "1.b4"))]]
              eq_refl eq_refl) as (mc & Hc & Hsum & _ & _ & Hhalf).
  exists mc. split; [exact Hc|]. split; [exact Hsum | exact Hhalf].
Defined.


(** ** Every stage of a run *)




